(** * RoadForm: a shallow embedding of [roadform/form.py]

    The development follows the source file top to bottom: the Python
    values and builtins the module relies on, the enumerations and
    dataclasses, the [FieldValidator] predicates, and the [Form] methods
    [add_field], [validate], [render_html] and [_render_field]; the
    methods are then given once more as programs on a store of objects,
    and the properties of both readings follow.

    Conventions.
    - A Python [str] is a [string] whose characters stand for the code
      points U+0000..U+00FF, so [String.length] is Python's [len].
    - Python numbers are the integers ([int], and [bool] where Python
      treats it as one); values of type [float] only arise inside
      [min_value]/[max_value] as the result of [float(value)].
    - A statement that may raise returns a [result]; exceptions propagate
      through [bind] exactly as an uncaught Python exception does. *)

From Stdlib Require Import Strings.String Strings.Ascii.
From Stdlib Require Import ZArith List Bool Lia.
From Stdlib Require Import Numbers.DecimalString Numbers.DecimalPos.
Import ListNotations.

Open Scope string_scope.
Open Scope Z_scope.

(** ** Exceptions *)

Inductive exn : Type :=
| ValueError
| TypeError
| OverflowError
| ReError                      (* re.error: the pattern does not compile *)
| UserError (tag : string).    (* raised by a caller-supplied predicate *)

Inductive result (A : Type) : Type :=
| Ok (a : A)
| Raise (e : exn).

Arguments Ok {A} a.
Arguments Raise {A} e.

Definition bind {A B : Type} (m : result A) (k : A -> result B) : result B :=
  match m with
  | Ok a => k a
  | Raise e => Raise e
  end.

Notation "x <- m ;; k" := (bind m (fun x => k))
  (at level 61, m at next level, right associativity).

Definition returns {A : Type} (m : result A) : Prop := exists a, m = Ok a.


(** ** Python values *)

Inductive Value : Type :=
| VNone
| VBool (b : bool)
| VInt (z : Z)
| VStr (s : string).

(** A validator parameter is any object: a plain value or a callable.
    A callable is represented by what calling it on one argument does. *)
Inductive Param : Type :=
| PVal (v : Value)
| PCallable (f : Value -> result Value).

(** [bool(value)], the truth value used by [not value], [x or y], [if value] *)
Definition truthy (v : Value) : bool :=
  match v with
  | VNone => false
  | VBool b => b
  | VInt z => negb (z =? 0)
  | VStr s => negb (String.eqb s EmptyString)
  end.

(** [x or y] on values *)
Definition py_or (x y : Value) : Value := if truthy x then x else y.

(** [x or y] on strings *)
Definition str_or (x y : string) : string :=
  if String.eqb x EmptyString then y else x.

(** The decimal numeral of an integer, [str(z)]; every integer is
    printed in full (the interpreter's optional cap on the number of
    digits is taken to be off). *)
Definition str_of_Z (z : Z) : string := NilZero.string_of_int (Z.to_int z).

(** [str(value)] *)
Definition py_str (v : Value) : string :=
  match v with
  | VNone => "None"
  | VBool true => "True"
  | VBool false => "False"
  | VInt z => str_of_Z z
  | VStr s => s
  end.

(** [len(s)] *)
Definition len (s : string) : Z := Z.of_nat (String.length s).

(** *** Characters *)

Definition code (c : ascii) : Z := Z.of_N (N_of_ascii c).

Definition in_range (lo hi : Z) (c : ascii) : bool :=
  (lo <=? code c) && (code c <=? hi).

Definition is_char (k : Z) (c : ascii) : bool := code c =? k.

Definition is_digit : ascii -> bool := in_range 48 57.
Definition is_alpha (c : ascii) : bool := in_range 65 90 c || in_range 97 122 c.

(** [str.isspace] on one character, also the class [\s] of [re] on [str]
    patterns: TAB..CR, FS..US, space, NEL and NBSP. *)
Definition py_isspace (c : ascii) : bool :=
  in_range 9 13 c || in_range 28 32 c || is_char 133 c || is_char 160 c.

(** *** [str.strip()]

    [lstrip_by]/[rstrip_by] drop the leading/trailing characters of a
    class; [str.strip()] with no argument drops whitespace. *)

Fixpoint lstrip_by (p : ascii -> bool) (s : string) : string :=
  match s with
  | EmptyString => EmptyString
  | String c s' => if p c then lstrip_by p s' else s
  end.

Fixpoint rstrip_by (p : ascii -> bool) (s : string) : string :=
  match s with
  | EmptyString => EmptyString
  | String c s' =>
      match rstrip_by p s' with
      | EmptyString => if p c then EmptyString else String c EmptyString
      | t => String c t
      end
  end.

Definition strip_by (p : ascii -> bool) (s : string) : string :=
  rstrip_by p (lstrip_by p s).

Definition strip : string -> string := strip_by py_isspace.

(** *** [sep.join(parts)] *)

Fixpoint join (sep : string) (parts : list string) : string :=
  match parts with
  | [] => EmptyString
  | [p] => p
  | p :: rest => p ++ sep ++ join sep rest
  end.

(** *** [html.escape(s)] with its default [quote=True]

    The library replaces [&] first and then [<], [>], the double and the
    single quote; since no replacement text contains a character that a
    later step rewrites, this is a character-wise substitution. *)

Definition escape_char (c : ascii) : string :=
  if is_char 38 c then "&amp;"
  else if is_char 60 c then "&lt;"
  else if is_char 62 c then "&gt;"
  else if is_char 34 c then "&quot;"
  else if is_char 39 c then "&#x27;"
  else String c EmptyString.

Fixpoint html_escape (s : string) : string :=
  match s with
  | EmptyString => EmptyString
  | String c s' => escape_char c ++ html_escape s'
  end.

(** [needle in hay] *)
Fixpoint contains (needle hay : string) : bool :=
  String.prefix needle hay ||
  match hay with
  | EmptyString => false
  | String _ hay' => contains needle hay'
  end.

(** ** [float(value)]

    A double is kept as the exact number it denotes: [FFin m e] is
    [m * 2^e].  Only the order against an integer bound is ever observed. *)

Inductive pyfloat : Type :=
| FNan
| FInf (negative : bool)
| FFin (m e : Z).

(** Nearest integer to [n / d], ties to even ([0 <= n], [0 < d]). *)
Definition round_half_even (n d : Z) : Z :=
  let q := n / d in
  match 2 * (n mod d) ?= d with
  | Lt => q
  | Gt => q + 1
  | Eq => if Z.even q then q else q + 1
  end.

(** [floor (log2 (n / d))] for [0 < n], [0 < d]. *)
Definition floor_log2_ratio (n d : Z) : Z :=
  let k := Z.log2 n - Z.log2 d in
  if d * 2 ^ Z.max 0 k <=? n * 2 ^ Z.max 0 (- k) then k else k - 1.

(** IEEE-754 binary64 round-to-nearest-even of [n / d]: 53 significant
    bits, least exponent [-1074], overflow to infinity from [2^1024]. *)
Definition nearest_double (negative : bool) (n d : Z) : pyfloat :=
  if n =? 0 then FFin 0 0
  else
    let p := Z.max (floor_log2_ratio n d - 52) (-1074) in
    let m := round_half_even (n * 2 ^ Z.max 0 (- p)) (d * 2 ^ Z.max 0 p) in
    if m =? 0 then FFin 0 0
    else if 1024 <=? Z.log2 m + p then FInf negative
    else FFin (if negative then - m else m) p.

(** The whitespace [float] strips: the C [isspace] class, and the
    non-ASCII spaces, which it first rewrites to a blank. *)
Definition float_isspace (c : ascii) : bool :=
  in_range 9 13 c || is_char 32 c || is_char 133 c || is_char 160 c.

(** Numeric literals may group digits with single underscores: each
    underscore stands between two digits. [prev] is the character read
    last. *)
Fixpoint drop_underscores (prev : ascii) (s : string) : option string :=
  match s with
  | EmptyString => if is_char 95 prev then None else Some EmptyString
  | String c s' =>
      if is_char 95 c then
        if is_digit prev then drop_underscores c s' else None
      else if is_char 95 prev && negb (is_digit c) then None
      else option_map (String c) (drop_underscores c s')
  end.

Definition parse_sign (s : string) : bool * string :=
  match s with
  | String c s' =>
      if is_char 45 c then (true, s')
      else if is_char 43 c then (false, s')
      else (false, s)
  | EmptyString => (false, s)
  end.

(** Reads the leading digits of [s] onto the number [acc], counting them. *)
Fixpoint take_digits (s : string) (acc count : Z) : Z * Z * string :=
  match s with
  | String c s' =>
      if is_digit c then take_digits s' (10 * acc + (code c - 48)) (count + 1)
      else (acc, count, s)
  | EmptyString => (acc, count, s)
  end.

(** [digits [. digits] [(e|E) [sign] digits]] with a digit in the
    mantissa; the result [(m, x)] denotes [m * 10^x]. *)
Definition parse_decimal (s : string) : option (Z * Z) :=
  let '(ip, ni, r1) := take_digits s 0 0 in
  let '(m, nf, r2) :=
    match r1 with
    | String c r => if is_char 46 c then take_digits r ip 0 else (ip, 0, r1)
    | EmptyString => (ip, 0, r1)
    end in
  if ni + nf =? 0 then None
  else
    match r2 with
    | EmptyString => Some (m, - nf)
    | String c r =>
        if is_char 101 c || is_char 69 c then
          let '(eneg, r3) := parse_sign r in
          match take_digits r3 0 0 with
          | (ev, ne, EmptyString) =>
              if ne =? 0 then None
              else Some (m, (if eneg then - ev else ev) - nf)
          | _ => None
          end
        else None
    end.

Definition lower_char (c : ascii) : ascii :=
  if in_range 65 90 c then ascii_of_N (Z.to_N (code c + 32)) else c.

Fixpoint lower (s : string) : string :=
  match s with
  | EmptyString => EmptyString
  | String c s' => String (lower_char c) (lower s')
  end.

(** [float(s)] for a string. *)
Definition float_of_str (s : string) : result pyfloat :=
  match drop_underscores zero (strip_by float_isspace s) with
  | None => Raise ValueError
  | Some t =>
      let '(negative, body) := parse_sign t in
      let word := lower body in
      if String.eqb word "inf" || String.eqb word "infinity" then Ok (FInf negative)
      else if String.eqb word "nan" then Ok FNan
      else
        match parse_decimal body with
        | None => Raise ValueError
        | Some (m, x) =>
            Ok (if 0 <=? x then nearest_double negative (m * 10 ^ x) 1
                else nearest_double negative m (10 ^ (- x)))
        end
  end.

(** [float(value)] *)
Definition py_float (v : Value) : result pyfloat :=
  match v with
  | VNone => Raise TypeError
  | VBool b => Ok (FFin (if b then 1 else 0) 0)
  | VInt z =>
      match nearest_double (z <? 0) (Z.abs z) 1 with
      | FInf _ => Raise OverflowError
      | f => Ok f
      end
  | VStr s => float_of_str s
  end.

(** [f >= n] and [f <= n] for a float [f] and an integer [n]; Python
    compares the two exactly, and every comparison with NaN is false. *)
Definition float_ge (f : pyfloat) (n : Z) : bool :=
  match f with
  | FNan => false
  | FInf negative => negb negative
  | FFin m e => if 0 <=? e then n <=? m * 2 ^ e else n * 2 ^ (- e) <=? m
  end.

Definition float_le (f : pyfloat) (n : Z) : bool :=
  match f with
  | FNan => false
  | FInf negative => negative
  | FFin m e => if 0 <=? e then m * 2 ^ e <=? n else m <=? n * 2 ^ (- e)
  end.

(** The integer a parameter stands for in a comparison, if it is a number. *)
Definition as_number (p : Param) : option Z :=
  match p with
  | PVal (VInt n) => Some n
  | PVal (VBool b) => Some (if b then 1 else 0)
  | _ => None
  end.

(** ** The two fixed patterns of [re.match]

    [email] and [url] call [re.match] with a literal pattern.  Both
    patterns use only character classes, concatenation, [?], [+], [*],
    [{2,}] and a final [$], so that a match exists exactly when the text
    (or the text without one final newline, which [$] also accepts) is in
    the regular language below.  Membership is decided by derivatives. *)

Inductive regex : Type :=
| Void
| Eps
| Cls (p : ascii -> bool)
| Cat (r1 r2 : regex)
| Alt (r1 r2 : regex)
| Star (r : regex).

Fixpoint nullable (r : regex) : bool :=
  match r with
  | Void => false
  | Eps => true
  | Cls _ => false
  | Cat r1 r2 => nullable r1 && nullable r2
  | Alt r1 r2 => nullable r1 || nullable r2
  | Star _ => true
  end.

Fixpoint deriv (c : ascii) (r : regex) : regex :=
  match r with
  | Void => Void
  | Eps => Void
  | Cls p => if p c then Eps else Void
  | Cat r1 r2 =>
      if nullable r1 then Alt (Cat (deriv c r1) r2) (deriv c r2)
      else Cat (deriv c r1) r2
  | Alt r1 r2 => Alt (deriv c r1) (deriv c r2)
  | Star r1 => Cat (deriv c r1) (Star r1)
  end.

Fixpoint matches (r : regex) (s : string) : bool :=
  match s with
  | EmptyString => nullable r
  | String c s' => matches (deriv c r) s'
  end.

Definition Plus (r : regex) : regex := Cat r (Star r).
Definition Opt (r : regex) : regex := Alt Eps r.

Fixpoint Lit (s : string) : regex :=
  match s with
  | EmptyString => Eps
  | String c s' => Cat (Cls (Ascii.eqb c)) (Lit s')
  end.

Fixpoint in_set (set : string) (c : ascii) : bool :=
  match set with
  | EmptyString => false
  | String k set' => Ascii.eqb k c || in_set set' c
  end.

(** [s] without its final character when that is a newline. *)
Fixpoint chomp (s : string) : option string :=
  match s with
  | EmptyString => None
  | String c EmptyString => if is_char 10 c then Some EmptyString else None
  | String c s' => option_map (String c) (chomp s')
  end.

(** [bool(re.match(r + '$', s))] for a pattern [r] as above. *)
Definition match_dollar (r : regex) (s : string) : bool :=
  matches r s ||
  match chomp s with
  | Some w => matches r w
  | None => false
  end.

(** [^[a-zA-Z0-9._%+-]+@[a-zA-Z0-9.-]+\.[a-zA-Z]{2,}$] *)
Definition email_pattern : regex :=
  Cat (Plus (Cls (fun c => is_alpha c || is_digit c || in_set "._%+-" c)))
 (Cat (Lit "@")
 (Cat (Plus (Cls (fun c => is_alpha c || is_digit c || in_set ".-" c)))
 (Cat (Lit ".")
 (Cat (Cls is_alpha) (Cat (Cls is_alpha) (Star (Cls is_alpha))))))).

(** [^https?://[^\s/$.?#].[^\s]*$]; the dot matches all but a newline. *)
Definition url_pattern : regex :=
  Cat (Lit "http") (Cat (Opt (Lit "s")) (Cat (Lit "://")
 (Cat (Cls (fun c => negb (py_isspace c || in_set "/$.?#" c)))
 (Cat (Cls (fun c => negb (is_char 10 c)))
      (Star (Cls (fun c => negb (py_isspace c)))))))).

(** ** Python dictionaries

    A [dict] keeps its keys in insertion order and assigning to a key it
    already holds replaces the value in place; the association list below
    has at most one entry per key as long as it is built with [dict_set]. *)

Definition pydict (A : Type) : Type := list (string * A).

Definition keys {A : Type} (d : pydict A) : list string := map fst d.

(** [d.get(k)] *)
Fixpoint dict_get {A : Type} (d : pydict A) (k : string) : option A :=
  match d with
  | [] => None
  | (k', v) :: rest => if String.eqb k' k then Some v else dict_get rest k
  end.

(** [d.get(k, default)] *)
Definition dict_get_default {A : Type} (d : pydict A) (k : string) (default : A) : A :=
  match dict_get d k with
  | Some v => v
  | None => default
  end.

(** [d[k] = v] *)
Fixpoint dict_set {A : Type} (d : pydict A) (k : string) (v : A) : pydict A :=
  match d with
  | [] => [(k, v)]
  | (k', v') :: rest =>
      if String.eqb k' k then (k', v) :: rest else (k', v') :: dict_set rest k v
  end.

(** ** Enumerations and dataclasses *)

Module FieldType.

Inductive t : Type :=
| TEXT | EMAIL | PASSWORD | NUMBER | DATE | DATETIME
| SELECT | CHECKBOX | RADIO | TEXTAREA | FILE | HIDDEN.

Definition value (x : t) : string :=
  match x with
  | TEXT => "text"
  | EMAIL => "email"
  | PASSWORD => "password"
  | NUMBER => "number"
  | DATE => "date"
  | DATETIME => "datetime"
  | SELECT => "select"
  | CHECKBOX => "checkbox"
  | RADIO => "radio"
  | TEXTAREA => "textarea"
  | FILE => "file"
  | HIDDEN => "hidden"
  end.

End FieldType.

Module ValidationRule.

Inductive t : Type :=
| REQUIRED | EMAIL | URL | MIN_LENGTH | MAX_LENGTH
| MIN_VALUE | MAX_VALUE | PATTERN | CUSTOM.

Definition value (x : t) : string :=
  match x with
  | REQUIRED => "required"
  | EMAIL => "email"
  | URL => "url"
  | MIN_LENGTH => "min_length"
  | MAX_LENGTH => "max_length"
  | MIN_VALUE => "min_value"
  | MAX_VALUE => "max_value"
  | PATTERN => "pattern"
  | CUSTOM => "custom"
  end.

End ValidationRule.

Module ValidationError.

Record t : Type := mk {
  field : string;
  rule : string;
  message : string
}.

End ValidationError.

Module FieldOption.

Record t : Type := mk {
  value : string;
  label : string;
  selected : bool;
  disabled : bool
}.

End FieldOption.

Module FormField.

(** One entry of [validators]: the tuple [(rule, value, message)], where
    [message] is [None] unless the caller gave one. *)
Definition validator : Type := ValidationRule.t * Param * option string.

Record t : Type := mk {
  name : string;
  type : FieldType.t;
  label : string;
  placeholder : string;
  default : Value;
  required : bool;
  disabled : bool;
  readonly : bool;
  options : list FieldOption.t;
  validators : list validator;
  attributes : pydict string;
  help_text : string
}.

(** [FormField(name)] with every other attribute at its dataclass default. *)
Definition new (name : string) : t :=
  mk name FieldType.TEXT EmptyString EmptyString VNone false false false
     [] [] [] EmptyString.

(** [self.validators.append((rule, value, message))] *)
Definition add_validator (self : t) (rule : ValidationRule.t) (value : Param)
    (message : option string) : t :=
  mk (name self) (type self) (label self) (placeholder self) (default self)
     (required self) (disabled self) (readonly self) (options self)
     (validators self ++ [(rule, value, message)])
     (attributes self) (help_text self).

End FormField.

Module FormData.

Record t : Type := mk {
  fields : pydict Value;
  valid : bool;
  errors : list ValidationError.t
}.

End FormData.

(** ** [FieldValidator] *)

(** [n >= bound] and [n <= bound] for an [int] [n]: a [TypeError] unless
    the bound is a number. *)
Definition int_ge (n : Z) (bound : Param) : result bool :=
  match as_number bound with
  | Some k => Ok (k <=? n)
  | None => Raise TypeError
  end.

Definition int_le (n : Z) (bound : Param) : result bool :=
  match as_number bound with
  | Some k => Ok (n <=? k)
  | None => Raise TypeError
  end.

Definition float_ge_param (f : pyfloat) (bound : Param) : result bool :=
  match as_number bound with
  | Some k => Ok (float_ge f k)
  | None => Raise TypeError
  end.

Definition float_le_param (f : pyfloat) (bound : Param) : result bool :=
  match as_number bound with
  | Some k => Ok (float_le f k)
  | None => Raise TypeError
  end.

(** The signature of [re.match] as [pattern] uses it: pattern source and
    text to whether a match exists at the start of the text, or
    [re.error] when the pattern does not compile. *)
Definition regex_engine : Type := string -> string -> result bool.

Module FieldValidator.

Definition required (value : Value) : bool :=
  match value with
  | VNone => false
  | VStr s => if String.eqb (strip s) EmptyString then false else true
  | _ => true
  end.

Definition email (value : Value) : bool :=
  if negb (truthy value) then true
  else match_dollar email_pattern (py_str value).

Definition url (value : Value) : bool :=
  if negb (truthy value) then true
  else match_dollar url_pattern (py_str value).

Definition min_length (value : Value) (min_len : Param) : result bool :=
  if negb (truthy value) then Ok true
  else int_ge (len (py_str value)) min_len.

Definition max_length (value : Value) (max_len : Param) : result bool :=
  if negb (truthy value) then Ok true
  else int_le (len (py_str value)) max_len.

Definition min_value (value : Value) (min_val : Param) : result bool :=
  match value with
  | VNone => Ok true
  | _ => f <- py_float value ;; float_ge_param f min_val
  end.

Definition max_value (value : Value) (max_val : Param) : result bool :=
  match value with
  | VNone => Ok true
  | _ => f <- py_float value ;; float_le_param f max_val
  end.

Definition pattern (re_match : regex_engine) (value : Value) (regex : Param)
    : result bool :=
  if negb (truthy value) then Ok true
  else
    match regex with
    | PVal (VStr r) => re_match r (py_str value)
    | _ => Raise TypeError
    end.

End FieldValidator.

(** ** [Form] *)

(** The double quote and the newline, which the f-strings below contain. *)
Definition dq : string := String "034" EmptyString.
Definition nl : string := String "010" EmptyString.

(** [k="v"], the shape of every attribute the f-strings write. *)
Definition attr (k v : string) : string := k ++ "=" ++ dq ++ v ++ dq.

(** [f"{param}"]; a callable prints as an address-dependent [repr], which
    no message can contain: a bound that is a callable makes the
    comparison raise before the message is used. *)
Definition format_param (p : Param) : string :=
  match p with
  | PVal v => py_str v
  | PCallable _ => "<function>"
  end.

(** [l.append(x)] *)
Definition append {A : Type} (l : list A) (x : A) : list A := (l ++ [x])%list.

(** [message or default_msg] *)
Definition message_or (message : option string) (default_msg : string) : string :=
  match message with
  | Some m => str_or m default_msg
  | None => default_msg
  end.

Module Form.

Record t : Type := mk {
  name : string;
  fields : pydict FormField.t;
  method : string;
  action : string;
  enctype : string;
  attributes : pydict string
}.

(** [Form(name)] *)
Definition init (name : string) : t :=
  mk name [] "POST" EmptyString "application/x-www-form-urlencoded" [].

(** [self.fields[field.name] = field] *)
Definition add_field (self : t) (field : FormField.t) : t :=
  mk (name self)
     (dict_set (fields self) (FormField.name field) field)
     (method self) (action self) (enctype self) (attributes self).

Section Validate.

Variable re_match : regex_engine.

(** The [if]/[elif] chain of the inner loop: the validity the rule
    assigns to [value] and the rule's default message. *)
Definition evaluate (name : string) (field : FormField.t) (value : Value)
    (rule : ValidationRule.t) (param : Param) : result (bool * string) :=
  let who := str_or (FormField.label field) name in
  match rule with
  | ValidationRule.REQUIRED =>
      Ok (FieldValidator.required value, who ++ " is required")
  | ValidationRule.EMAIL =>
      Ok (FieldValidator.email value, "Invalid email address")
  | ValidationRule.URL =>
      Ok (FieldValidator.url value, "Invalid URL")
  | ValidationRule.MIN_LENGTH =>
      valid <- FieldValidator.min_length value param ;;
      Ok (valid, "Minimum length is " ++ format_param param)
  | ValidationRule.MAX_LENGTH =>
      valid <- FieldValidator.max_length value param ;;
      Ok (valid, "Maximum length is " ++ format_param param)
  | ValidationRule.MIN_VALUE =>
      valid <- FieldValidator.min_value value param ;;
      Ok (valid, "Minimum value is " ++ format_param param)
  | ValidationRule.MAX_VALUE =>
      valid <- FieldValidator.max_value value param ;;
      Ok (valid, "Maximum value is " ++ format_param param)
  | ValidationRule.PATTERN =>
      valid <- FieldValidator.pattern re_match value param ;;
      Ok (valid, "Invalid format")
  | ValidationRule.CUSTOM =>
      match param with
      | PCallable f =>
          r <- f value ;;
          Ok (truthy r, who ++ " validation failed")
      | PVal _ => Ok (true, who ++ " validation failed")
      end
  end.

(** One pass of the inner loop; [errors] is the list so far. *)
Definition check_validator (name : string) (field : FormField.t) (value : Value)
    (errors : list ValidationError.t) (v : FormField.validator)
    : result (list ValidationError.t) :=
  let '(rule, param, message) := v in
  r <- evaluate name field value rule param ;;
  let '(valid, default_msg) := r in
  if negb valid then
    Ok (append errors
          (ValidationError.mk name (ValidationRule.value rule)
             (message_or message default_msg)))
  else Ok errors.

(** [for rule, param, message in field.validators: ...] *)
Fixpoint run_validators (name : string) (field : FormField.t) (value : Value)
    (vs : list FormField.validator) (errors : list ValidationError.t)
    : result (list ValidationError.t) :=
  match vs with
  | [] => Ok errors
  | v :: rest =>
      errors' <- check_validator name field value errors v ;;
      run_validators name field value rest errors'
  end.

(** [for name, field in self.fields.items(): ...], on the two local
    objects [errors] and [validated]. *)
Fixpoint validate_fields (items : pydict FormField.t) (data : pydict Value)
    (errors : list ValidationError.t) (validated : pydict Value)
    : result (list ValidationError.t * pydict Value) :=
  match items with
  | [] => Ok (errors, validated)
  | (name, field) :: rest =>
      let value := dict_get_default data name (FormField.default field) in
      if FormField.required field && negb (FieldValidator.required value) then
        validate_fields rest data
          (append errors
             (ValidationError.mk name "required"
                (str_or (FormField.label field) name ++ " is required")))
          validated
      else
        errors' <- run_validators name field value (FormField.validators field) errors ;;
        validate_fields rest data errors' (dict_set validated name value)
  end.

Definition validate (self : t) (data : pydict Value) : result FormData.t :=
  r <- validate_fields (fields self) data [] [] ;;
  let '(errors, validated) := r in
  Ok (FormData.mk validated (Nat.eqb (List.length errors) 0) errors).

End Validate.

(** The body of the loop over [field.options]. *)
Definition render_option (value : Value) (opt : FieldOption.t) : string :=
  let selected :=
    if String.eqb (FieldOption.value opt) (py_str value) then " selected"
    else EmptyString in
  "<option " ++ attr "value" (FieldOption.value opt) ++ selected ++ ">"
    ++ FieldOption.label opt ++ "</option>".

Definition is_type (x y : FieldType.t) : bool :=
  String.eqb (FieldType.value x) (FieldType.value y).

Definition _render_field (field : FormField.t) (value : Value) : string :=
  let escaped_value :=
    if truthy value then html_escape (py_str value) else EmptyString in
  let attrs :=
    join " " (map (fun kv => attr (fst kv) (snd kv)) (FormField.attributes field)) in
  let required := if FormField.required field then " required" else EmptyString in
  let disabled := if FormField.disabled field then " disabled" else EmptyString in
  let readonly := if FormField.readonly field then " readonly" else EmptyString in
  let name := FormField.name field in
  if is_type (FormField.type field) FieldType.HIDDEN then
    "<input " ++ attr "type" "hidden" ++ " " ++ attr "name" name ++ " "
      ++ attr "value" escaped_value ++ ">"
  else
    let parts := ["<div " ++ attr "class" "form-group" ++ ">"] in
    let parts :=
      if negb (String.eqb (FormField.label field) EmptyString)
         && negb (is_type (FormField.type field) FieldType.CHECKBOX)
      then append parts ("<label " ++ attr "for" name ++ ">"
                           ++ FormField.label field ++ "</label>")
      else parts in
    let parts :=
      if is_type (FormField.type field) FieldType.TEXTAREA then
        append parts
          ("<textarea " ++ attr "name" name ++ " " ++ attr "id" name ++ " "
             ++ attr "placeholder" (FormField.placeholder field)
             ++ required ++ disabled ++ readonly ++ " " ++ attrs ++ ">"
             ++ escaped_value ++ "</textarea>")
      else if is_type (FormField.type field) FieldType.SELECT then
        let parts :=
          append parts
            ("<select " ++ attr "name" name ++ " " ++ attr "id" name
               ++ required ++ disabled ++ " " ++ attrs ++ ">") in
        let parts :=
          fold_left (fun parts opt => append parts (render_option value opt))
                    (FormField.options field) parts in
        append parts "</select>"
      else if is_type (FormField.type field) FieldType.CHECKBOX then
        let checked := if truthy value then " checked" else EmptyString in
        append parts
          ("<label><input " ++ attr "type" "checkbox" ++ " "
             ++ attr "name" name ++ " " ++ attr "id" name ++ " "
             ++ attr "value" "1" ++ checked ++ disabled ++ " " ++ attrs
             ++ "> " ++ FormField.label field ++ "</label>")
      else
        append parts
          ("<input " ++ attr "type" (FieldType.value (FormField.type field))
             ++ " " ++ attr "name" name ++ " " ++ attr "id" name ++ " "
             ++ attr "value" escaped_value ++ " "
             ++ attr "placeholder" (FormField.placeholder field)
             ++ required ++ disabled ++ readonly ++ " " ++ attrs ++ ">") in
    let parts :=
      if negb (String.eqb (FormField.help_text field) EmptyString)
      then append parts ("<small>" ++ FormField.help_text field ++ "</small>")
      else parts in
    let parts := append parts "</div>" in
    join nl parts.

(** The loop of [render_html]: each field is handed to the renderer
    together with its display value, and what the renderer returns is
    appended to [parts].  The renderer is [self._render_field]; it is a
    parameter here so that the same loop also yields the arguments of
    the calls (see [render_calls]). *)
Definition render_fields {A : Type} (render : FormField.t -> Value -> A)
    (items : pydict FormField.t) (data : pydict Value) (parts : list A) : list A :=
  fold_left
    (fun parts item =>
       let '(name, field) := item in
       let value :=
         py_or (dict_get_default data name (FormField.default field))
               (VStr EmptyString) in
       append parts (render field value))
    items parts.

(** [data or {}] for the optional argument of [render_html]. *)
Definition data_or_empty (data : option (pydict Value)) : pydict Value :=
  match data with
  | Some (item :: d) => item :: d
  | _ => []
  end.

Definition render_html (self : t) (data : option (pydict Value)) : string :=
  let data := data_or_empty data in
  let parts :=
    ["<form " ++ attr "name" (name self) ++ " " ++ attr "method" (method self)
       ++ " " ++ attr "action" (action self) ++ " "
       ++ attr "enctype" (enctype self) ++ ">"] in
  let parts := render_fields _render_field (fields self) data parts in
  let parts := append parts ("<button " ++ attr "type" "submit" ++ ">Submit</button>") in
  let parts := append parts "</form>" in
  join nl parts.

(** The [(field, value)] pairs [render_html] passes to [_render_field],
    in call order. *)
Definition render_calls (self : t) (data : option (pydict Value))
    : list (FormField.t * Value) :=
  render_fields pair (fields self) (data_or_empty data) [].

End Form.

(** ** The methods on objects in a store

    [validate] and [render_html] build their results in objects of their
    own: the list [errors], the dict [validated], the list [parts].  To
    say what they do to the objects that exist when they are called, the
    form among them, the two methods are written here once more as
    programs on a store of objects, where [errors.append(..)],
    [validated[name] = value] and [parts.append(..)] are writes to a
    reference.  A form is stored with its fields, and they with their
    validators, options and attributes, as one object: its fields belong
    to it alone. *)

Module Store.

Inductive object : Type :=
| FormObject (form : Form.t)
| ErrorList (errors : list ValidationError.t)
| ValueDict (values : pydict Value)
| StringList (parts : list string).

Definition ref : Type := nat.
Definition heap : Type := list object.

(** A program maps the store to its outcome and the store it leaves; an
    exception leaves the store as it is when it is raised. *)
Definition M (A : Type) : Type := heap -> result A * heap.

Definition ret {A : Type} (a : A) : M A := fun h => (Ok a, h).

Definition raise {A : Type} (e : exn) : M A := fun h => (Raise e, h).

Definition lift {A : Type} (r : result A) : M A := fun h => (r, h).

Definition mbind {A B : Type} (m : M A) (k : A -> M B) : M B :=
  fun h =>
    match m h with
    | (Ok a, h') => k a h'
    | (Raise e, h') => (Raise e, h')
    end.

Notation "x <~ m ;; k" := (mbind m (fun x => k))
  (at level 61, m at next level, right associativity).

Fixpoint update {A : Type} (l : list A) (n : nat) (x : A) : list A :=
  match l, n with
  | [], _ => []
  | _ :: l', O => x :: l'
  | a :: l', S n' => a :: update l' n' x
  end.

(** A new object; its reference is the next free one. *)
Definition new (o : object) : M ref :=
  fun h => (Ok (List.length h), (h ++ [o])%list).

(** The object behind a reference; a reference to nothing, like an
    object of the wrong kind below, is a [TypeError]. *)
Definition load (r : ref) : M object :=
  fun h =>
    match nth_error h r with
    | Some o => (Ok o, h)
    | None => (Raise TypeError, h)
    end.

Definition store (r : ref) (o : object) : M unit :=
  fun h => (Ok tt, update h r o).

Definition load_form (r : ref) : M Form.t :=
  o <~ load r ;;
  match o with FormObject form => ret form | _ => raise TypeError end.

Definition load_errors (r : ref) : M (list ValidationError.t) :=
  o <~ load r ;;
  match o with ErrorList errors => ret errors | _ => raise TypeError end.

Definition load_values (r : ref) : M (pydict Value) :=
  o <~ load r ;;
  match o with ValueDict values => ret values | _ => raise TypeError end.

Definition load_parts (r : ref) : M (list string) :=
  o <~ load r ;;
  match o with StringList parts => ret parts | _ => raise TypeError end.

(** [errors.append(e)] *)
Definition errors_append (r : ref) (e : ValidationError.t) : M unit :=
  errors <~ load_errors r ;;
  store r (ErrorList (append errors e)).

(** [validated[name] = value] *)
Definition values_setitem (r : ref) (name : string) (value : Value) : M unit :=
  values <~ load_values r ;;
  store r (ValueDict (dict_set values name value)).

(** [parts.append(s)] *)
Definition parts_append (r : ref) (s : string) : M unit :=
  parts <~ load_parts r ;;
  store r (StringList (append parts s)).

(** [for x in l: body] *)
Fixpoint for_each {A : Type} (l : list A) (body : A -> M unit) : M unit :=
  match l with
  | [] => ret tt
  | x :: rest => _ <~ body x ;; for_each rest body
  end.

(** [self.fields[field.name] = field] *)
Definition add_field (self : ref) (field : FormField.t) : M unit :=
  form <~ load_form self ;;
  store self (FormObject (Form.add_field form field)).

(** The body of the loop over [field.validators]. *)
Definition check_validator (re_match : regex_engine) (errors : ref)
    (name : string) (field : FormField.t) (value : Value)
    (v : FormField.validator) : M unit :=
  let '(rule, param, message) := v in
  r <~ lift (Form.evaluate re_match name field value rule param) ;;
  let '(valid, default_msg) := r in
  if negb valid then
    errors_append errors
      (ValidationError.mk name (ValidationRule.value rule)
         (message_or message default_msg))
  else ret tt.

(** The body of the loop over [self.fields.items()]. *)
Definition validate_field (re_match : regex_engine) (errors validated : ref)
    (data : pydict Value) (item : string * FormField.t) : M unit :=
  let '(name, field) := item in
  let value := dict_get_default data name (FormField.default field) in
  if FormField.required field && negb (FieldValidator.required value) then
    errors_append errors
      (ValidationError.mk name "required"
         (str_or (FormField.label field) name ++ " is required"))
  else
    _ <~ for_each (FormField.validators field)
           (check_validator re_match errors name field value) ;;
    values_setitem validated name value.

Definition validate (re_match : regex_engine) (self : ref) (data : pydict Value)
    : M FormData.t :=
  errors <~ new (ErrorList []) ;;
  validated <~ new (ValueDict []) ;;
  form <~ load_form self ;;
  _ <~ for_each (Form.fields form) (validate_field re_match errors validated data) ;;
  errs <~ load_errors errors ;;
  vals <~ load_values validated ;;
  ret (FormData.mk vals (Nat.eqb (List.length errs) 0) errs).

(** The body of the loop of [render_html]. *)
Definition render_item (parts : ref) (data : pydict Value)
    (item : string * FormField.t) : M unit :=
  let '(name, field) := item in
  let value :=
    py_or (dict_get_default data name (FormField.default field))
          (VStr EmptyString) in
  parts_append parts (Form._render_field field value).

Definition render_html (self : ref) (data : option (pydict Value)) : M string :=
  let data := Form.data_or_empty data in
  form <~ load_form self ;;
  parts <~ new (StringList
                  ["<form " ++ attr "name" (Form.name form) ++ " "
                     ++ attr "method" (Form.method form) ++ " "
                     ++ attr "action" (Form.action form) ++ " "
                     ++ attr "enctype" (Form.enctype form) ++ ">"]) ;;
  _ <~ for_each (Form.fields form) (render_item parts data) ;;
  _ <~ parts_append parts ("<button " ++ attr "type" "submit" ++ ">Submit</button>") ;;
  _ <~ parts_append parts "</form>" ;;
  lines <~ load_parts parts ;;
  ret (join nl lines).

End Store.

(** ** Notions used in the statements *)

(** The resolved value of a field: [data.get(name, field.default)]. *)
Definition resolved (data : pydict Value) (name : string) (field : FormField.t)
    : Value :=
  dict_get_default data name (FormField.default field).

(** The test that opens the body of the loop of [validate]:
    [field.required and not FieldValidator.required(value)]. *)
Definition gated (field : FormField.t) (value : Value) : bool :=
  FormField.required field && negb (FieldValidator.required value).

(** The error appended when that test succeeds. *)
Definition required_error (name : string) (field : FormField.t) : ValidationError.t :=
  ValidationError.mk name "required"
    (str_or (FormField.label field) name ++ " is required").

(** [e.field == name] *)
Definition about (name : string) (e : ValidationError.t) : bool :=
  String.eqb (ValidationError.field e) name.


(** A regex engine for closed examples.  On a pattern without
    metacharacters [re.match] is a prefix test; this engine answers
    those and rejects every other pattern with [re.error].  No example
    below uses a pattern with a metacharacter. *)
Definition plain_engine : regex_engine :=
  fun pattern text =>
    if existsb (fun c => in_set ".^$*+?{}[]\|()" c) (list_ascii_of_string pattern)
    then Raise ReError
    else Ok (String.prefix pattern text).

(** ** Example forms and submissions *)

Definition email_field : FormField.t :=
  FormField.add_validator
    (FormField.mk "email" FieldType.EMAIL "Email" EmptyString VNone
       true false false [] [] [] EmptyString)
    ValidationRule.EMAIL (PVal VNone) (Some "Invalid email address").

Definition password_field : FormField.t :=
  FormField.add_validator
    (FormField.mk "password" FieldType.PASSWORD "Password" EmptyString VNone
       true false false [] [] [] EmptyString)
    ValidationRule.MIN_LENGTH (PVal (VInt 8)) None.

Definition age_field : FormField.t :=
  FormField.add_validator
    (FormField.add_validator
       (FormField.mk "age" FieldType.NUMBER "Age" EmptyString VNone
          false false false [] [] [] EmptyString)
       ValidationRule.MIN_VALUE (PVal (VInt 0)) None)
    ValidationRule.MAX_VALUE (PVal (VInt 120)) None.

Definition signup_form : Form.t :=
  Form.add_field
    (Form.add_field (Form.add_field (Form.init "signup") email_field) password_field)
    age_field.

(** An empty password and an age over the bound. *)
Definition empty_password : pydict Value :=
  [("email", VStr "user@example.com"); ("password", VStr EmptyString);
   ("age", VInt 150)].


(** A submission every validator accepts. *)
Definition good_submission : pydict Value :=
  [("email", VStr "user@example.com"); ("password", VStr "secret123");
   ("age", VStr "42")].

(** [all(p(c) for c in s)] *)
Fixpoint all_chars (p : ascii -> bool) (s : string) : bool :=
  match s with
  | EmptyString => true
  | String c s' => p c && all_chars p s'
  end.

(** A character that cannot open or close a tag or an attribute value. *)
Definition inert (c : ascii) : bool :=
  negb (is_char 60 c || is_char 62 c || is_char 34 c || is_char 39 c).

(** An absent or empty value: [None] or the empty string. *)
Definition empty (value : Value) : Prop :=
  value = VNone \/ value = VStr EmptyString.

(** A field with a custom rule whose predicate is Python's [bool]. *)
Definition nickname_field : FormField.t :=
  FormField.add_validator (FormField.new "nickname")
    ValidationRule.CUSTOM (PCallable (fun v => Ok (VBool (truthy v)))) None.

Definition nickname_form : Form.t :=
  Form.add_field (Form.init "profile") nickname_field.

(** A text input and a select, to render. *)
Definition text_field (label placeholder help_text : string) : FormField.t :=
  FormField.mk "q" FieldType.TEXT label placeholder VNone
    false false false [] [] [] help_text.

Definition choice_field (options : list FieldOption.t) : FormField.t :=
  FormField.mk "choice" FieldType.SELECT "Choice" EmptyString VNone
    false false false options [] [] EmptyString.

Definition quantity_field : FormField.t :=
  FormField.mk "quantity" FieldType.SELECT "Quantity" EmptyString VNone
    false false false
    [FieldOption.mk "0" "None" false false; FieldOption.mk "1" "One" true false]
    [] [] EmptyString.

Definition order_form : Form.t :=
  Form.add_field (Form.init "order") quantity_field.

(** The display value [render_html] computes for a field:
    [data.get(name, field.default) or ""], with [data or {}] for [data]. *)
Definition display (data : option (pydict Value)) (name : string)
    (field : FormField.t) : Value :=
  let value := resolved (Form.data_or_empty data) name field in
  if truthy value then value else VStr EmptyString.

(** ** The language of a pattern

    What it means for a text to match a pattern as a whole; the matcher
    by derivatives is checked against it below. *)

Inductive lang : regex -> string -> Prop :=
| lang_eps : lang Eps EmptyString
| lang_cls (p : ascii -> bool) (c : ascii) :
    p c = true -> lang (Cls p) (String c EmptyString)
| lang_cat (r1 r2 : regex) (s1 s2 : string) :
    lang r1 s1 -> lang r2 s2 -> lang (Cat r1 r2) (s1 ++ s2)
| lang_alt_l (r1 r2 : regex) (s : string) :
    lang r1 s -> lang (Alt r1 r2) s
| lang_alt_r (r1 r2 : regex) (s : string) :
    lang r2 s -> lang (Alt r1 r2) s
| lang_star_nil (r : regex) : lang (Star r) EmptyString
| lang_star_cons (r : regex) (s1 s2 : string) :
    lang r s1 -> lang (Star r) s2 -> lang (Star r) (s1 ++ s2).

(** The character classes of the two fixed patterns. *)
Definition email_local (c : ascii) : bool :=
  is_alpha c || is_digit c || in_set "._%+-" c.

Definition email_domain (c : ascii) : bool :=
  is_alpha c || is_digit c || in_set ".-" c.

Definition url_first (c : ascii) : bool :=
  negb (py_isspace c || in_set "/$.?#" c).

Definition not_newline (c : ascii) : bool := negb (is_char 10 c).

Definition not_space (c : ascii) : bool := negb (py_isspace c).

(** [s.count(c)] summed over the characters [c] of a class. *)
Fixpoint count_chars (p : ascii -> bool) (s : string) : nat :=
  match s with
  | EmptyString => O
  | String c s' => ((if p c then 1 else 0) + count_chars p s')%nat
  end.

(** The characters that delimit tags and attribute values. *)
Definition delimiter (c : ascii) : bool := negb (inert c).



(** ** The field factories of [Form] and the presets of [FormBuilder] *)

(** The keyword arguments a factory hands on to [FormField(..)]: each
    attribute of the dataclass other than [name], [type] and [label],
    given or not. *)
Module Kwargs.

Record t : Type := mk {
  placeholder : option string;
  default : option Value;
  required : option bool;
  disabled : option bool;
  readonly : option bool;
  options : option (list FieldOption.t);
  validators : option (list FormField.validator);
  attributes : option (pydict string);
  help_text : option string
}.


(** [required=True] *)
Definition required_true : t :=
  mk None None (Some true) None None None None None None.

(** The argument if given, else the default of the dataclass. *)
Definition get {A : Type} (given : option A) (default : A) : A :=
  match given with
  | Some a => a
  | None => default
  end.

(** [FormField(name=name, type=type, label=label, **kwargs)] *)
Definition construct (name : string) (type : FieldType.t) (label : string)
    (kwargs : t) : FormField.t :=
  FormField.mk name type label
    (get (placeholder kwargs) EmptyString)
    (get (default kwargs) VNone)
    (get (required kwargs) false)
    (get (disabled kwargs) false)
    (get (readonly kwargs) false)
    (get (options kwargs) [])
    (get (validators kwargs) [])
    (get (attributes kwargs) [])
    (get (help_text kwargs) EmptyString).

End Kwargs.

Module FormFactory.

Section Title.

(** [str.title]; it can lead out of the characters U+0000..U+00FF, so it
    is taken as given. *)
Variable title : string -> string.

Definition text (self : Form.t) (name label : string) (kwargs : Kwargs.t) : Form.t :=
  Form.add_field self
    (Kwargs.construct name FieldType.TEXT (str_or label (title name)) kwargs).

Definition email (self : Form.t) (name label : string) (kwargs : Kwargs.t) : Form.t :=
  let field := Kwargs.construct name FieldType.EMAIL (str_or label "Email") kwargs in
  let field :=
    FormField.add_validator field ValidationRule.EMAIL (PVal VNone)
      (Some "Invalid email address") in
  Form.add_field self field.


Definition number (self : Form.t) (name label : string) (kwargs : Kwargs.t) : Form.t :=
  Form.add_field self
    (Kwargs.construct name FieldType.NUMBER (str_or label (title name)) kwargs).

Definition date (self : Form.t) (name label : string) (kwargs : Kwargs.t) : Form.t :=
  Form.add_field self
    (Kwargs.construct name FieldType.DATE (str_or label (title name)) kwargs).

(** [options] is given twice when [kwargs] has it too: a [TypeError]. *)
Definition select (self : Form.t) (name : string) (options : list (Value * string))
    (label : string) (kwargs : Kwargs.t) : result Form.t :=
  let field_options :=
    map (fun vl => FieldOption.mk (py_str (fst vl)) (snd vl) false false) options in
  match Kwargs.options kwargs with
  | Some _ => Raise TypeError
  | None =>
      Ok (Form.add_field self
            (FormField.mk name FieldType.SELECT (str_or label (title name))
               (Kwargs.get (Kwargs.placeholder kwargs) EmptyString)
               (Kwargs.get (Kwargs.default kwargs) VNone)
               (Kwargs.get (Kwargs.required kwargs) false)
               (Kwargs.get (Kwargs.disabled kwargs) false)
               (Kwargs.get (Kwargs.readonly kwargs) false)
               field_options
               (Kwargs.get (Kwargs.validators kwargs) [])
               (Kwargs.get (Kwargs.attributes kwargs) [])
               (Kwargs.get (Kwargs.help_text kwargs) EmptyString)))
  end.



Definition hidden (self : Form.t) (name : string) (value : Value) : Form.t :=
  Form.add_field self
    (FormField.mk name FieldType.HIDDEN EmptyString EmptyString value
       false false false [] [] [] EmptyString).


End Title.

End FormFactory.

Module FormBuilder.

Section Title.

Variable title : string -> string.

Definition create (name : string) : Form.t := Form.init name.




End Title.

End FormBuilder.


(** Two texts with the same number of delimiters. *)
Definition same_delimiters (s t : string) : Prop :=
  count_chars delimiter s = count_chars delimiter t.



(** * Properties *)

(** ** The error monad *)

Lemma bind_Ok_inv {A B : Type} (m : result A) (k : A -> result B) (b : B) :
  bind m k = Ok b -> exists a, m = Ok a /\ k a = Ok b.
Proof.
  destruct m as [a | e]; simpl; intros H.
  - exists a. split; [reflexivity | exact H].
  - discriminate H.
Qed.

Lemma returns_Ok {A : Type} (a : A) : returns (Ok a).
Proof. exists a. reflexivity. Qed.



#[local] Hint Resolve returns_Ok : core.

(** ** Dictionaries *)

Lemma dict_get_In {A : Type} (d : pydict A) (k : string) (v : A) :
  dict_get d k = Some v -> In (k, v) d.
Proof.
  induction d as [| [k' v'] d IH]; simpl; intros H.
  - discriminate H.
  - destruct (String.eqb k' k) eqn:E.
    + apply String.eqb_eq in E. injection H as ->. subst k'. left. reflexivity.
    + right. apply IH. exact H.
Qed.

Lemma dict_get_None {A : Type} (d : pydict A) (k : string) :
  dict_get d k = None <-> ~ In k (keys d).
Proof.
  induction d as [| [k' v'] d IH]; simpl.
  - split; [intros _ [] | reflexivity].
  - destruct (String.eqb k' k) eqn:E.
    + apply String.eqb_eq in E. split; [discriminate | intros H; exfalso; apply H; left; exact E].
    + apply String.eqb_neq in E. rewrite IH. split.
      * intros H [H1 | H1]; [exact (E H1) | exact (H H1)].
      * intros H H1. apply H. right. exact H1.
Qed.

Lemma dict_get_NoDup {A : Type} (d : pydict A) (k : string) (v : A) :
  NoDup (keys d) -> In (k, v) d -> dict_get d k = Some v.
Proof.
  induction d as [| [k' v'] d IH]; simpl; intros Hnd Hin.
  - destruct Hin.
  - inversion Hnd as [| x l Hnotin Hnd']; subst.
    destruct Hin as [Heq | Hin].
    + injection Heq as -> ->. rewrite String.eqb_refl. reflexivity.
    + destruct (String.eqb k' k) eqn:E.
      * apply String.eqb_eq in E. subst k'. exfalso. apply Hnotin.
        apply (in_map fst) in Hin. exact Hin.
      * apply IH; assumption.
Qed.

Lemma keys_dict_set {A : Type} (d : pydict A) (k : string) (v : A) :
  keys (dict_set d k v) =
  match dict_get d k with
  | Some _ => keys d
  | None => (keys d ++ [k])%list
  end.
Proof.
  unfold keys. induction d as [| [k' v'] d IH]; simpl.
  - reflexivity.
  - destruct (String.eqb k' k) eqn:E; simpl.
    + reflexivity.
    + rewrite IH. destruct (dict_get d k); reflexivity.
Qed.

Lemma dict_get_set_same {A : Type} (d : pydict A) (k : string) (v : A) :
  dict_get (dict_set d k v) k = Some v.
Proof.
  induction d as [| [k' v'] d IH]; simpl.
  - rewrite String.eqb_refl. reflexivity.
  - destruct (String.eqb k' k) eqn:E; simpl; rewrite E; [reflexivity | exact IH].
Qed.

Lemma dict_get_set_other {A : Type} (d : pydict A) (k k0 : string) (v : A) :
  k <> k0 -> dict_get (dict_set d k v) k0 = dict_get d k0.
Proof.
  intros Hne. induction d as [| [k' v'] d IH]; simpl.
  - destruct (String.eqb k k0) eqn:E; [apply String.eqb_eq in E; contradiction | reflexivity].
  - destruct (String.eqb k' k) eqn:E; simpl.
    + apply String.eqb_eq in E. subst k'.
      destruct (String.eqb k k0) eqn:E0; [apply String.eqb_eq in E0; contradiction | reflexivity].
    + rewrite IH. reflexivity.
Qed.

Lemma NoDup_keys_dict_set {A : Type} (d : pydict A) (k : string) (v : A) :
  NoDup (keys d) -> NoDup (keys (dict_set d k v)).
Proof.
  intros Hnd. rewrite keys_dict_set. destruct (dict_get d k) eqn:E.
  - exact Hnd.
  - apply dict_get_None in E. apply NoDup_app; [exact Hnd | repeat constructor; intros [] | ].
    intros x Hx [Hk | []]. subst x. exact (E Hx).
Qed.

(** ** [validate]: which errors a field contributes *)

Section ValidateFacts.

Variable re_match : regex_engine.

Lemma filter_about_append (name : string) (errors : list ValidationError.t)
    (e : ValidationError.t) :
  filter (about name) (append errors e)
  = (filter (about name) errors ++ (if about name e then [e] else []))%list.
Proof.
  unfold append. rewrite filter_app. simpl. destruct (about name e); reflexivity.
Qed.

(** One validator appends at most one error, and that error names the
    field being validated. *)
Lemma check_validator_cases (name : string) (field : FormField.t) (value : Value)
    (errors errors' : list ValidationError.t) (v : FormField.validator) :
  Form.check_validator re_match name field value errors v = Ok errors' ->
  errors' = errors \/
  exists rule message, errors' = append errors (ValidationError.mk name rule message).
Proof.
  destruct v as [[rule param] message]. unfold Form.check_validator.
  intros H. apply bind_Ok_inv in H. destruct H as [[valid default_msg] [_ H]].
  destruct valid; simpl in H; injection H as <-.
  - left. reflexivity.
  - right. eexists. eexists. reflexivity.
Qed.

Lemma run_validators_other (name other : string) (field : FormField.t) (value : Value)
    (vs : list FormField.validator) :
  name <> other ->
  forall errors errors',
  Form.run_validators re_match name field value vs errors = Ok errors' ->
  filter (about other) errors' = filter (about other) errors.
Proof.
  intros Hne. induction vs as [| v vs IH]; simpl; intros errors errors' H.
  - injection H as <-. reflexivity.
  - apply bind_Ok_inv in H. destruct H as [errors1 [H1 H2]].
    rewrite (IH _ _ H2).
    apply check_validator_cases in H1. destruct H1 as [-> | [rule [message ->]]].
    + reflexivity.
    + rewrite filter_about_append. unfold about at 2. simpl.
      destruct (String.eqb name other) eqn:E.
      * apply String.eqb_eq in E. contradiction.
      * apply app_nil_r.
Qed.

(** Fields with another name leave the errors about [name] as they are. *)
Lemma validate_fields_other (name : string) (data : pydict Value)
    (items : pydict FormField.t) :
  ~ In name (keys items) ->
  forall errors validated errors' validated',
  Form.validate_fields re_match items data errors validated = Ok (errors', validated') ->
  filter (about name) errors' = filter (about name) errors.
Proof.
  induction items as [| [n f] items IH]; simpl; intros Hnotin errors validated errors' validated' H.
  - injection H as <- _. reflexivity.
  - assert (Hne : n <> name) by (intros ->; apply Hnotin; left; reflexivity).
    assert (Hrest : ~ In name (keys items)) by (intros Hin; apply Hnotin; right; exact Hin).
    destruct (FormField.required f && negb (FieldValidator.required _)).
    + rewrite (IH Hrest _ _ _ _ H). rewrite filter_about_append.
      unfold about at 2. simpl.
      destruct (String.eqb n name) eqn:E.
      * apply String.eqb_eq in E. contradiction.
      * apply app_nil_r.
    + apply bind_Ok_inv in H. destruct H as [errors1 [H1 H2]].
      rewrite (IH Hrest _ _ _ _ H2).
      exact (run_validators_other n name f _ _ Hne _ _ H1).
Qed.

Lemma validate_fields_gated (name : string) (field : FormField.t)
    (data : pydict Value) (items : pydict FormField.t) :
  NoDup (keys items) ->
  In (name, field) items ->
  gated field (resolved data name field) = true ->
  forall errors validated errors' validated',
  Form.validate_fields re_match items data errors validated = Ok (errors', validated') ->
  filter (about name) errors'
  = (filter (about name) errors ++ [required_error name field])%list.
Proof.
  induction items as [| [n f] items IH]; simpl;
    intros Hnd Hin Hgate errors validated errors' validated' H.
  - destruct Hin.
  - inversion Hnd as [| x l Hnotin Hnd']; subst.
    destruct Hin as [Heq | Hin].
    + injection Heq as -> ->.
      unfold gated, resolved in Hgate. rewrite Hgate in H.
      rewrite (validate_fields_other name data items Hnotin _ _ _ _ H).
      rewrite filter_about_append. unfold about at 2. simpl.
      rewrite String.eqb_refl. reflexivity.
    + assert (Hne : n <> name).
      { intros ->. apply Hnotin. apply (in_map fst) in Hin. exact Hin. }
      destruct (FormField.required f && negb (FieldValidator.required _)).
      * rewrite (IH Hnd' Hin Hgate _ _ _ _ H). rewrite filter_about_append.
        unfold about at 2. simpl.
        destruct (String.eqb n name) eqn:E.
        -- apply String.eqb_eq in E. contradiction.
        -- rewrite app_nil_r. reflexivity.
      * apply bind_Ok_inv in H. destruct H as [errors1 [H1 H2]].
        rewrite (IH Hnd' Hin Hgate _ _ _ _ H2).
        rewrite (run_validators_other n name f _ _ Hne _ _ H1). reflexivity.
Qed.

(** C4. A required field whose resolved value fails [required] gets
    exactly one error in the result of [validate], the one with rule
    [required]; whatever validators are attached to the field are not
    run for it. *)
Theorem required_short_circuit (self : Form.t) (data : pydict Value)
    (fd : FormData.t) (name : string) (field : FormField.t) :
  NoDup (keys (Form.fields self)) ->
  In (name, field) (Form.fields self) ->
  FormField.required field = true ->
  FieldValidator.required (resolved data name field) = false ->
  Form.validate re_match self data = Ok fd ->
  filter (about name) (FormData.errors fd)
  = [ValidationError.mk name "required"
       (str_or (FormField.label field) name ++ " is required")].
Proof.
  intros Hnd Hin Hreq Hfail H. unfold Form.validate in H.
  apply bind_Ok_inv in H. destruct H as [[errors validated] [H1 H2]].
  injection H2 as <-. simpl.
  assert (Hgate : gated field (resolved data name field) = true).
  { unfold gated. rewrite Hreq, Hfail. reflexivity. }
  exact (validate_fields_gated name field data _ Hnd Hin Hgate _ _ _ _ H1).
Qed.

End ValidateFacts.

(** ** [validate]: when it returns *)

Section ValidateReturns.

Variable re_match : regex_engine.









End ValidateReturns.

(** ** [validate]: which values it records *)

Section ValidateRecords.

Variable re_match : regex_engine.

Lemma validate_fields_keeps (name : string) (data : pydict Value)
    (items : pydict FormField.t) :
  ~ In name (keys items) ->
  forall errors validated errors' validated',
  Form.validate_fields re_match items data errors validated = Ok (errors', validated') ->
  dict_get validated' name = dict_get validated name.
Proof.
  induction items as [| [n f] items IH]; simpl;
    intros Hnotin errors validated errors' validated' H.
  - injection H as _ <-. reflexivity.
  - assert (Hne : n <> name) by (intros ->; apply Hnotin; left; reflexivity).
    assert (Hrest : ~ In name (keys items)) by (intros Hin; apply Hnotin; right; exact Hin).
    destruct (FormField.required f && negb (FieldValidator.required _)).
    + exact (IH Hrest _ _ _ _ H).
    + apply bind_Ok_inv in H. destruct H as [errors1 [_ H2]].
      rewrite (IH Hrest _ _ _ _ H2). apply dict_get_set_other. exact Hne.
Qed.

(** The value of a field reaches the result mapping unless the required
    gate fired for it: the [continue] of that branch skips the
    assignment to [validated]. *)
Lemma validate_fields_records (name : string) (field : FormField.t)
    (data : pydict Value) (items : pydict FormField.t) :
  NoDup (keys items) ->
  In (name, field) items ->
  forall errors validated errors' validated',
  Form.validate_fields re_match items data errors validated = Ok (errors', validated') ->
  dict_get validated' name
  = if gated field (resolved data name field) then dict_get validated name
    else Some (resolved data name field).
Proof.
  induction items as [| [n f] items IH]; simpl;
    intros Hnd Hin errors validated errors' validated' H.
  - destruct Hin.
  - inversion Hnd as [| x l Hnotin Hnd']; subst.
    destruct Hin as [Heq | Hin].
    + injection Heq as -> ->. unfold gated, resolved.
      destruct (FormField.required field && negb (FieldValidator.required _)).
      * exact (validate_fields_keeps name data items Hnotin _ _ _ _ H).
      * apply bind_Ok_inv in H. destruct H as [errors1 [_ H2]].
        rewrite (validate_fields_keeps name data items Hnotin _ _ _ _ H2).
        apply dict_get_set_same.
    + assert (Hne : n <> name).
      { intros ->. apply Hnotin. apply (in_map fst) in Hin. exact Hin. }
      destruct (FormField.required f && negb (FieldValidator.required _)).
      * exact (IH Hnd' Hin _ _ _ _ H).
      * apply bind_Ok_inv in H. destruct H as [errors1 [_ H2]].
        rewrite (IH Hnd' Hin _ _ _ _ H2).
        destruct (gated field (resolved data name field)); [| reflexivity].
        apply dict_get_set_other. exact Hne.
Qed.

Lemma validate_records_unless_gated (self : Form.t) (data : pydict Value)
    (fd : FormData.t) (name : string) (field : FormField.t) :
  NoDup (keys (Form.fields self)) ->
  In (name, field) (Form.fields self) ->
  Form.validate re_match self data = Ok fd ->
  dict_get (FormData.fields fd) name
  = if gated field (resolved data name field) then None
    else Some (resolved data name field).
Proof.
  intros Hnd Hin H. unfold Form.validate in H.
  apply bind_Ok_inv in H. destruct H as [[errors validated] [H1 H2]].
  injection H2 as <-. simpl.
  exact (validate_fields_records name field data _ Hnd Hin _ _ _ _ H1).
Qed.

(** C1, at the input where the code departs from it.  The sign-up form
    has a required [password] field; submitted with an empty password,
    [validate] returns a [FormData] whose errors name [password] but whose
    [fields] mapping has no entry for it, although its resolved value is
    the empty string. *)
Theorem validate_drops_gated_value :
  exists fd,
    Form.validate re_match signup_form empty_password = Ok fd /\
    In ("password", password_field) (Form.fields signup_form) /\
    resolved empty_password "password" password_field = VStr EmptyString /\
    filter (about "password") (FormData.errors fd)
      = [required_error "password" password_field] /\
    dict_get (FormData.fields fd) "password" = None.
Proof.
  eexists. split; [reflexivity |].
  split; [right; left; reflexivity |].
  split; [reflexivity |]. split; reflexivity.
Qed.

End ValidateRecords.

(** ** Closed instances *)



(** The sign-up form submitted with an empty password: of the two
    errors of the result, the one about [password] is the [required]
    error, and the [min_length] rule of the field left none. *)
Lemma required_short_circuit_witness :
  filter (about "password")
    [ValidationError.mk "password" "required" "Password is required";
     ValidationError.mk "age" "max_value" "Maximum value is 120"]
  = [ValidationError.mk "password" "required" "Password is required"].
Proof.
  apply (required_short_circuit plain_engine signup_form empty_password
           (FormData.mk [("email", VStr "user@example.com"); ("age", VInt 150)] false
              [ValidationError.mk "password" "required" "Password is required";
               ValidationError.mk "age" "max_value" "Maximum value is 120"])
           "password" password_field).
  - repeat constructor; simpl; intuition discriminate.
  - right. left. reflexivity.
  - reflexivity.
  - reflexivity.
  - reflexivity.
Defined.

(** ** [add_field] *)

Lemma In_dict_set {A : Type} (d : pydict A) (k k0 : string) (v x : A) :
  In (k, x) (dict_set d k0 v) -> (k, x) = (k0, v) \/ In (k, x) d.
Proof.
  induction d as [| [k' v'] d IH]; simpl.
  - intros [H | []]. left. symmetry. exact H.
  - destruct (String.eqb k' k0) eqn:E; simpl.
    + apply String.eqb_eq in E. subst k'. intros [H | H]; [left; symmetry; exact H | right; right; exact H].
    + intros [H | H]; [right; left; exact H |].
      destruct (IH H) as [H1 | H1]; [left; exact H1 | right; right; exact H1].
Qed.

Lemma fold_add_field_snoc (fs : list FormField.t) (f : FormField.t) (self : Form.t) :
  fold_left Form.add_field (fs ++ [f]) self
  = Form.add_field (fold_left Form.add_field fs self) f.
Proof. apply fold_left_app. Qed.

(** Looking a name up after a run of [add_field] calls finds the field
    added last under that name, or what the form held before. *)
Lemma fold_add_field_get (fs : list FormField.t) (self : Form.t) (k : string) :
  dict_get (Form.fields (fold_left Form.add_field fs self)) k
  = match find (fun f => String.eqb (FormField.name f) k) (rev fs) with
    | Some f => Some f
    | None => dict_get (Form.fields self) k
    end.
Proof.
  induction fs as [| f fs IH] using rev_ind.
  - reflexivity.
  - rewrite fold_add_field_snoc, rev_app_distr. simpl.
    destruct (String.eqb (FormField.name f) k) eqn:E.
    + apply String.eqb_eq in E. subst k. apply dict_get_set_same.
    + apply String.eqb_neq in E. rewrite dict_get_set_other by exact E. exact IH.
Qed.

Lemma fold_add_field_NoDup (fs : list FormField.t) :
  forall self,
  NoDup (keys (Form.fields self)) ->
  NoDup (keys (Form.fields (fold_left Form.add_field fs self))).
Proof.
  induction fs as [| f fs IH]; simpl; intros self H.
  - exact H.
  - apply IH. simpl. apply NoDup_keys_dict_set. exact H.
Qed.

Lemma fold_add_field_keyed (fs : list FormField.t) :
  forall self,
  (forall k f, In (k, f) (Form.fields self) -> k = FormField.name f) ->
  forall k f, In (k, f) (Form.fields (fold_left Form.add_field fs self)) ->
  k = FormField.name f.
Proof.
  induction fs as [| g fs IH]; simpl; intros self H.
  - exact H.
  - apply IH. simpl. intros k f Hin. apply In_dict_set in Hin.
    destruct Hin as [Heq | Hin]; [injection Heq as -> ->; reflexivity | exact (H k f Hin)].
Qed.

Lemma find_none_app {A : Type} (p : A -> bool) (l1 l2 : list A) :
  (forall x, In x l1 -> p x = false) -> find p (l1 ++ l2) = find p l2.
Proof.
  induction l1 as [| a l1 IH]; simpl; intros H.
  - reflexivity.
  - rewrite (H a (or_introl eq_refl)). apply IH. intros x Hx. apply H. right. exact Hx.
Qed.

(** C5, as the code has it.  After any sequence of [add_field] calls on
    a new form: the names in the form are pairwise distinct and each
    field sits under its own name; every name that was added is still
    there; and the field stored under a name is the one added last under
    that name, so that a field stays in the form for as long as no later
    call adds a field of the same name. *)
Theorem add_field_sequence (form_name : string) (fs : list FormField.t) :
  let self := fold_left Form.add_field fs (Form.init form_name) in
  NoDup (keys (Form.fields self)) /\
  (forall k f, In (k, f) (Form.fields self) -> k = FormField.name f) /\
  (forall f, In f fs -> In (FormField.name f) (keys (Form.fields self))) /\
  (forall pre f post,
     fs = (pre ++ f :: post)%list ->
     (forall g, In g post -> FormField.name g <> FormField.name f) ->
     dict_get (Form.fields self) (FormField.name f) = Some f).
Proof.
  simpl. split; [| split; [| split]].
  - apply fold_add_field_NoDup. constructor.
  - apply fold_add_field_keyed. intros k f [].
  - intros f Hin.
    pose proof (fold_add_field_get fs (Form.init form_name) (FormField.name f)) as H.
    destruct (find _ (rev fs)) as [g |] eqn:E.
    + apply dict_get_In in H. apply (in_map fst) in H. exact H.
    + rewrite in_rev in Hin. pose proof (find_none _ _ E f Hin) as C.
      simpl in C. rewrite String.eqb_refl in C. discriminate C.
  - intros pre f post -> Hpost. rewrite fold_add_field_get.
    rewrite rev_app_distr. simpl. rewrite <- app_assoc. rewrite find_none_app.
    + simpl. rewrite String.eqb_refl. reflexivity.
    + intros g Hg. rewrite <- in_rev in Hg. apply String.eqb_neq. exact (Hpost g Hg).
Qed.

(** C5 fails as stated: a second [add_field] under a name already in
    the form replaces the field added first, which is then no longer
    among the fields of the form. *)
Lemma add_field_replaces_same_name :
  let first := password_field in
  let second := FormField.new "password" in
  let self := Form.add_field (Form.add_field (Form.init "signup") first) second in
  Form.fields self = [("password", second)] /\
  ~ In first (map snd (Form.fields self)).
Proof.
  simpl. split; [reflexivity |].
  intros [H | []]. discriminate H.
Qed.

(** ** The rules on an absent or empty value *)

Section Rules.

Variable re_match : regex_engine.

Lemma empty_falsy (value : Value) : empty value -> truthy value = false.
Proof. intros [-> | ->]; reflexivity. Qed.

(** C6, as the code has it.  On an absent or empty value no validator
    other than [required] and [custom] adds an error: [email], [url],
    [min_length], [max_length] and [pattern] accept it outright, and so
    do [min_value] and [max_value] when the value is absent.  A [custom]
    predicate is called on the value whatever it is, and its error is
    added when it answers [False]. *)
Theorem empty_value_exemption (name : string) (field : FormField.t)
    (value : Value) (errors : list ValidationError.t)
    (rule : ValidationRule.t) (param : Param) (message : option string) :
  (rule <> ValidationRule.REQUIRED -> rule <> ValidationRule.CUSTOM ->
   empty value ->
   forall errors',
   Form.check_validator re_match name field value errors (rule, param, message)
   = Ok errors' ->
   errors' = errors) /\
  (In rule [ValidationRule.EMAIL; ValidationRule.URL; ValidationRule.MIN_LENGTH;
            ValidationRule.MAX_LENGTH; ValidationRule.PATTERN] ->
   empty value ->
   Form.check_validator re_match name field value errors (rule, param, message)
   = Ok errors) /\
  (In rule [ValidationRule.MIN_VALUE; ValidationRule.MAX_VALUE] ->
   value = VNone ->
   Form.check_validator re_match name field value errors (rule, param, message)
   = Ok errors) /\
  (forall f,
   rule = ValidationRule.CUSTOM -> param = PCallable f ->
   f value = Ok (VBool false) ->
   Form.check_validator re_match name field value errors (rule, param, message)
   = Ok (append errors
           (ValidationError.mk name "custom"
              (message_or message
                 (str_or (FormField.label field) name ++ " validation failed"))))).
Proof.
  assert (Hfive :
    In rule [ValidationRule.EMAIL; ValidationRule.URL; ValidationRule.MIN_LENGTH;
             ValidationRule.MAX_LENGTH; ValidationRule.PATTERN] ->
    empty value ->
    Form.check_validator re_match name field value errors (rule, param, message)
    = Ok errors).
  { intros Hrule Hempty. apply empty_falsy in Hempty.
    unfold Form.check_validator, Form.evaluate.
    simpl in Hrule. destruct Hrule as [<- | [<- | [<- | [<- | [<- | []]]]]]; simpl.
    - unfold FieldValidator.email. rewrite Hempty. reflexivity.
    - unfold FieldValidator.url. rewrite Hempty. reflexivity.
    - unfold FieldValidator.min_length. rewrite Hempty. reflexivity.
    - unfold FieldValidator.max_length. rewrite Hempty. reflexivity.
    - unfold FieldValidator.pattern. rewrite Hempty. reflexivity. }
  assert (Hbound :
    In rule [ValidationRule.MIN_VALUE; ValidationRule.MAX_VALUE] ->
    value = VNone ->
    Form.check_validator re_match name field value errors (rule, param, message)
    = Ok errors).
  { intros Hrule ->. simpl in Hrule. destruct Hrule as [<- | [<- | []]]; reflexivity. }
  split; [| split; [exact Hfive | split; [exact Hbound |]]].
  - intros Hreq Hcustom Hempty errors' H.
    destruct rule; try contradiction;
      try (rewrite Hfive in H; [injection H as <-; reflexivity | simpl; tauto | exact Hempty]).
    + destruct Hempty as [-> | ->].
      * rewrite Hbound in H; [injection H as <-; reflexivity | simpl; tauto | reflexivity].
      * discriminate H.
    + destruct Hempty as [-> | ->].
      * rewrite Hbound in H; [injection H as <-; reflexivity | simpl; tauto | reflexivity].
      * discriminate H.
  - intros f -> -> Hf. unfold Form.check_validator, Form.evaluate. rewrite Hf.
    reflexivity.
Qed.

Lemma run_validators_app (name : string) (field : FormField.t) (value : Value)
    (pre post : list FormField.validator) :
  forall errors,
  Form.run_validators re_match name field value (pre ++ post) errors
  = (errs <- Form.run_validators re_match name field value pre errors ;;
     Form.run_validators re_match name field value post errs).
Proof.
  induction pre as [| v pre IH]; simpl; intros errors.
  - reflexivity.
  - destruct (Form.check_validator re_match name field value errors v) as [errors1 | e];
      simpl; [apply IH | reflexivity].
Qed.



End Rules.

(** C6 fails as stated: on a form whose optional [nickname] field has a
    [custom] rule, an empty submission leaves the value absent, the
    predicate is called on [None] all the same, and its error is
    recorded. *)
Lemma custom_rule_not_exempt_on_absent_value :
  resolved [] "nickname" nickname_field = VNone /\
  Form.validate plain_engine nickname_form []
  = Ok (FormData.mk [("nickname", VNone)] false
          [ValidationError.mk "nickname" "custom" "nickname validation failed"]).
Proof. split; reflexivity. Qed.


(** The [email] rule on an empty string and the [min_value] rule on an
    absent value add no error. *)
Lemma empty_value_exemption_witness :
  Form.check_validator plain_engine "email" email_field (VStr EmptyString) []
    (ValidationRule.EMAIL, PVal VNone, Some "Invalid email address") = Ok [] /\
  Form.check_validator plain_engine "age" age_field VNone []
    (ValidationRule.MIN_VALUE, PVal (VInt 0), None) = Ok [].
Proof.
  split.
  - apply (proj1 (proj2 (empty_value_exemption plain_engine "email" email_field
                           (VStr EmptyString) [] ValidationRule.EMAIL (PVal VNone)
                           (Some "Invalid email address")))).
    + left. reflexivity.
    + right. reflexivity.
  - apply (proj1 (proj2 (proj2 (empty_value_exemption plain_engine "age" age_field
                                  VNone [] ValidationRule.MIN_VALUE (PVal (VInt 0))
                                  None)))).
    + left. reflexivity.
    + reflexivity.
Defined.

(** ** Rendering *)

Lemma fold_left_append {A B : Type} (g : B -> A) (l : list B) :
  forall parts : list A,
  fold_left (fun parts x => append parts (g x)) l parts = (parts ++ map g l)%list.
Proof.
  induction l as [| x l IH]; simpl; intros parts.
  - symmetry. apply app_nil_r.
  - rewrite IH. unfold append. rewrite <- app_assoc. reflexivity.
Qed.

Lemma all_chars_app (p : ascii -> bool) (s t : string) :
  all_chars p (s ++ t) = all_chars p s && all_chars p t.
Proof.
  induction s as [| c s IH]; simpl; [reflexivity |].
  rewrite IH. apply andb_assoc.
Qed.

Lemma escape_char_inert (c : ascii) : all_chars inert (escape_char c) = true.
Proof.
  destruct c as [b0 b1 b2 b3 b4 b5 b6 b7].
  destruct b0, b1, b2, b3, b4, b5, b6, b7; vm_compute; reflexivity.
Qed.

(** What [html.escape] returns has no angle bracket and no quote left;
    this is the text [_render_field] writes for the value. *)
Lemma html_escape_inert (s : string) : all_chars inert (html_escape s) = true.
Proof.
  induction s as [| c s IH]; simpl; [reflexivity |].
  rewrite all_chars_app, escape_char_inert, IH. reflexivity.
Qed.

(** C3, at inputs where the code departs from it.  The value is escaped
    where it is written, but the label, the placeholder, the help text
    and the value and label of an option are written as they are: a
    [<script>] in any of them appears literally in the markup. *)
Theorem render_field_escapes_value_only :
  (contains "<script>"
     (Form._render_field (text_field "Query" "Search" "Help") (VStr "<script>")) = false /\
   contains "&lt;script&gt;"
     (Form._render_field (text_field "Query" "Search" "Help") (VStr "<script>")) = true) /\
  contains "<script>"
    (Form._render_field (text_field "<script>" "Search" "Help") (VStr EmptyString)) = true /\
  contains "<script>"
    (Form._render_field (text_field "Query" "<script>" "Help") (VStr EmptyString)) = true /\
  contains "<script>"
    (Form._render_field (text_field "Query" "Search" "<script>") (VStr EmptyString)) = true /\
  contains "<script>"
    (Form._render_field (choice_field [FieldOption.mk "<script>" "One" false false])
       (VStr EmptyString)) = true /\
  contains "<script>"
    (Form._render_field (choice_field [FieldOption.mk "1" "<script>" false false])
       (VStr EmptyString)) = true.
Proof. repeat split; vm_compute; reflexivity. Qed.

(** C7. The markup of a select field is a frame that depends neither on
    the options nor on the value, around one line per option in order;
    the line of an option carries the [selected] marker exactly when the
    value of the option equals [str(value)], and is built from the value
    and label of the option alone, so that neither its [selected] nor its
    [disabled] flag has any effect. *)
Theorem select_marks_matching_option (name label placeholder : string)
    (default : Value) (required disabled readonly : bool)
    (validators : list FormField.validator) (attributes : pydict string)
    (help_text : string) :
  exists opening closing : list string,
  forall (options : list FieldOption.t) (value : Value),
    Form._render_field
      (FormField.mk name FieldType.SELECT label placeholder default required
         disabled readonly options validators attributes help_text) value
    = join nl
        (opening
         ++ map (fun opt =>
                   ("<option " ++ attr "value" (FieldOption.value opt)
                    ++ (if String.eqb (FieldOption.value opt) (py_str value)
                        then " selected" else EmptyString)
                    ++ ">" ++ FieldOption.label opt ++ "</option>")%string) options
         ++ closing)%list.
Proof.
  unfold Form._render_field. simpl.
  exists (append
            (if negb (String.eqb label EmptyString) && true
             then append ["<div " ++ attr "class" "form-group" ++ ">"]
                    ("<label " ++ attr "for" name ++ ">" ++ label ++ "</label>")
             else ["<div " ++ attr "class" "form-group" ++ ">"])
            ("<select " ++ attr "name" name ++ " " ++ attr "id" name
               ++ (if required then " required" else EmptyString)
               ++ (if disabled then " disabled" else EmptyString) ++ " "
               ++ join " " (map (fun kv => attr (fst kv) (snd kv)) attributes)
               ++ ">")).
  exists (if negb (String.eqb help_text EmptyString)
          then ["</select>"; "<small>" ++ help_text ++ "</small>"; "</div>"]
          else ["</select>"; "</div>"]).
  intros options value. f_equal.
  rewrite fold_left_append. unfold Form.render_option, append.
  destruct (negb (String.eqb help_text EmptyString));
    repeat rewrite <- app_assoc; reflexivity.
Qed.

Lemma render_fields_map {A : Type} (render : FormField.t -> Value -> A)
    (items : pydict FormField.t) (data : option (pydict Value)) :
  forall parts,
  Form.render_fields render items (Form.data_or_empty data) parts
  = (parts ++ map (fun item => render (snd item) (display data (fst item) (snd item)))
                  items)%list.
Proof.
  unfold Form.render_fields.
  induction items as [| [n f] items IH]; simpl; intros parts.
  - symmetry. apply app_nil_r.
  - rewrite IH. unfold append. rewrite <- app_assoc. reflexivity.
Qed.

(** C8, as the code has it.  [render_html] calls the renderer once per
    field, in declaration order, with the display value
    [data.get(name, field.default) or ""]: the submitted value if the
    name is in the data and else the default, and the empty string in
    place of either when it is falsy ([None], [False], [0], the empty
    string).  The markup is the form tag, what the renderer returned for
    each field, the submit button and the closing tag, one per line. *)
Theorem render_display_value (self : Form.t) (data : option (pydict Value)) :
  Form.render_calls self data
  = map (fun item => (snd item, display data (fst item) (snd item))) (Form.fields self)
  /\
  Form.render_html self data
  = join nl
      (["<form " ++ attr "name" (Form.name self) ++ " "
          ++ attr "method" (Form.method self) ++ " "
          ++ attr "action" (Form.action self) ++ " "
          ++ attr "enctype" (Form.enctype self) ++ ">"]%string
       ++ map (fun item => Form._render_field (snd item)
                             (display data (fst item) (snd item)))
              (Form.fields self)
       ++ ["<button " ++ attr "type" "submit" ++ ">Submit</button>"; "</form>"]%string)%list.
Proof.
  split.
  - unfold Form.render_calls. rewrite render_fields_map. reflexivity.
  - unfold Form.render_html. rewrite render_fields_map. unfold append.
    repeat rewrite <- app_assoc. reflexivity.
Qed.

(** C8 fails as stated: with [0] submitted for [quantity], the renderer
    is handed the empty string, not [data["quantity"]]; the option [0] of
    the select is then not marked, as it would be for the value [0]. *)
Lemma render_passes_empty_string_for_zero :
  dict_get [("quantity", VInt 0)] "quantity" = Some (VInt 0) /\
  Form.render_calls order_form (Some [("quantity", VInt 0)])
  = [(quantity_field, VStr EmptyString)] /\
  contains " selected" (Form.render_html order_form (Some [("quantity", VInt 0)])) = false /\
  contains " selected" (Form._render_field quantity_field (VInt 0)) = true.
Proof. repeat split; vm_compute; reflexivity. Qed.

(** ** The methods on a store: what they write *)

Section StoreFacts.

Import Store.

#[local] Open Scope list_scope.

Variable re_match : regex_engine.

Lemma mbind_Ok {A B : Type} (m : M A) (k : A -> M B) (h h' : heap) (a : A) :
  m h = (Ok a, h') -> mbind m k h = k a h'.
Proof. intros H. unfold mbind. rewrite H. reflexivity. Qed.


Lemma load_form_at (h : heap) (r : ref) (form : Form.t) :
  nth_error h r = Some (FormObject form) -> load_form r h = (Ok form, h).
Proof. intros H. unfold load_form, load, mbind. rewrite H. reflexivity. Qed.
















(** By contrast [add_field] writes to the form itself. *)
Lemma add_field_writes_the_form (h : heap) (self : ref) (form : Form.t)
    (field : FormField.t) :
  nth_error h self = Some (FormObject form) ->
  Store.add_field self field h
  = (Ok tt, update h self (FormObject (Form.add_field form field))).
Proof.
  intros Hself. unfold Store.add_field.
  rewrite (mbind_Ok _ _ _ _ form (load_form_at h self form Hself)). reflexivity.
Qed.


End StoreFacts.


(** ** The matcher against the language of a pattern *)

Lemma append_nil_r (s : string) : s ++ EmptyString = s.
Proof. induction s as [| c s IH]; simpl; [reflexivity | rewrite IH; reflexivity]. Qed.

Lemma append_assoc (s t u : string) : (s ++ t) ++ u = s ++ t ++ u.
Proof. induction s as [| c s IH]; simpl; [reflexivity | rewrite IH; reflexivity]. Qed.

Lemma append_eq_nil (s t : string) :
  s ++ t = EmptyString -> s = EmptyString /\ t = EmptyString.
Proof. destruct s; simpl; intros H; [split; [reflexivity | exact H] | discriminate H]. Qed.

Lemma lang_eps_inv (s : string) : lang Eps s -> s = EmptyString.
Proof. intros H. inversion H. reflexivity. Qed.

Lemma lang_cls_inv (p : ascii -> bool) (s : string) :
  lang (Cls p) s -> exists c, s = String c EmptyString /\ p c = true.
Proof. intros H. inversion H; subst. eexists. split; [reflexivity | assumption]. Qed.

Lemma lang_cat_inv (r1 r2 : regex) (s : string) :
  lang (Cat r1 r2) s -> exists s1 s2, s = s1 ++ s2 /\ lang r1 s1 /\ lang r2 s2.
Proof.
  intros H. inversion H; subst. eexists. eexists.
  split; [reflexivity | split; assumption].
Qed.

Lemma lang_alt_inv (r1 r2 : regex) (s : string) :
  lang (Alt r1 r2) s -> lang r1 s \/ lang r2 s.
Proof. intros H. inversion H; subst; [left | right]; assumption. Qed.

Lemma nullable_lang (r : regex) : nullable r = true <-> lang r EmptyString.
Proof.
  induction r as [| | p | r1 IH1 r2 IH2 | r1 IH1 r2 IH2 | r IH]; simpl.
  - split; [discriminate | intros H; inversion H].
  - split; [intros _; constructor | reflexivity].
  - split; [discriminate | intros H; inversion H].
  - rewrite andb_true_iff, IH1, IH2. split.
    + intros [H1 H2]. exact (lang_cat r1 r2 EmptyString EmptyString H1 H2).
    + intros H. apply lang_cat_inv in H. destruct H as [s1 [s2 [Heq [H1 H2]]]].
      symmetry in Heq. apply append_eq_nil in Heq. destruct Heq as [-> ->].
      split; assumption.
  - rewrite orb_true_iff, IH1, IH2. split.
    + intros [H | H]; [apply lang_alt_l | apply lang_alt_r]; exact H.
    + apply lang_alt_inv.
  - split; [intros _; constructor | reflexivity].
Qed.

(** A non-empty text in the language of [Star r] starts with a
    non-empty text of [r]. *)
Lemma lang_star_uncons (r : regex) (s : string) :
  lang (Star r) s ->
  forall c s', s = String c s' ->
  exists s1 s2, s' = s1 ++ s2 /\ lang r (String c s1) /\ lang (Star r) s2.
Proof.
  intros H. remember (Star r) as r' eqn:Hr.
  induction H as [| | | | | r0 | r0 s1 s2 H1 _ H2 IH2]; try discriminate Hr.
  - intros c s' Heq. discriminate Heq.
  - injection Hr as ->. intros c s' Heq.
    destruct s1 as [| c1 s1]; simpl in Heq.
    + exact (IH2 eq_refl c s' Heq).
    + injection Heq as -> <-. exists s1, s2. repeat split; assumption.
Qed.

Lemma deriv_lang (r : regex) :
  forall c s, lang (deriv c r) s <-> lang r (String c s).
Proof.
  induction r as [| | p | r1 IH1 r2 IH2 | r1 IH1 r2 IH2 | r IH]; intros c s; simpl.
  - split; intros H; inversion H.
  - split; intros H; inversion H.
  - destruct (p c) eqn:Hp; split; intros H.
    + apply lang_eps_inv in H. subst s. constructor. exact Hp.
    + apply lang_cls_inv in H. destruct H as [c' [Heq _]]. injection Heq as _ ->.
      constructor.
    + inversion H.
    + apply lang_cls_inv in H. destruct H as [c' [Heq Hc]]. injection Heq as <- _.
      congruence.
  - assert (Hcat : lang (Cat (deriv c r1) r2) s <->
                   exists s1 s2, s = s1 ++ s2 /\ lang r1 (String c s1) /\ lang r2 s2).
    { split.
      - intros H. apply lang_cat_inv in H. destruct H as [s1 [s2 [-> [H1 H2]]]].
        exists s1, s2. split; [reflexivity |]. split; [apply IH1; exact H1 | exact H2].
      - intros [s1 [s2 [-> [H1 H2]]]]. constructor; [apply IH1; exact H1 | exact H2]. }
    assert (Hsplit : lang (Cat r1 r2) (String c s) <->
                     (exists s1 s2, s = s1 ++ s2 /\ lang r1 (String c s1) /\ lang r2 s2)
                     \/ (lang r1 EmptyString /\ lang r2 (String c s))).
    { split.
      - intros H. apply lang_cat_inv in H. destruct H as [s1 [s2 [Heq [H1 H2]]]].
        destruct s1 as [| c1 s1]; simpl in Heq.
        + right. subst s2. split; assumption.
        + injection Heq as -> ->. left. exists s1, s2. repeat split; assumption.
      - intros [[s1 [s2 [-> [H1 H2]]]] | [H1 H2]].
        + exact (lang_cat r1 r2 (String c s1) s2 H1 H2).
        + exact (lang_cat r1 r2 EmptyString (String c s) H1 H2). }
    rewrite Hsplit. destruct (nullable r1) eqn:Hn.
    + split.
      * intros H. apply lang_alt_inv in H. destruct H as [H | H].
        -- left. apply Hcat. assumption.
        -- right. split; [apply nullable_lang; exact Hn | apply IH2; assumption].
      * intros [H | [_ H]].
        -- apply lang_alt_l. apply Hcat. exact H.
        -- apply lang_alt_r. apply IH2. exact H.
    + rewrite Hcat. split; [intros H; left; exact H |].
      intros [H | [H _]]; [exact H |].
      apply nullable_lang in H. congruence.
  - split; intros H; apply lang_alt_inv in H; destruct H as [H | H].
    + apply lang_alt_l. apply IH1. assumption.
    + apply lang_alt_r. apply IH2. assumption.
    + apply lang_alt_l. apply IH1. assumption.
    + apply lang_alt_r. apply IH2. assumption.
  - split.
    + intros H. apply lang_cat_inv in H. destruct H as [s1 [s2 [-> [H1 H2]]]].
      exact (lang_star_cons r (String c s1) s2 (proj1 (IH c s1) H1) H2).
    + intros H. destruct (lang_star_uncons r _ H c s eq_refl) as [s1 [s2 [-> [H1 H2]]]].
      constructor; [apply IH; exact H1 | exact H2].
Qed.

(** The matcher decides the language. *)
Lemma matches_lang (s : string) : forall r, matches r s = true <-> lang r s.
Proof.
  induction s as [| c s IH]; intros r; simpl.
  - apply nullable_lang.
  - rewrite IH. apply deriv_lang.
Qed.

Lemma lang_cat_iff (r1 r2 : regex) (s : string) :
  lang (Cat r1 r2) s <-> exists s1 s2, s = s1 ++ s2 /\ lang r1 s1 /\ lang r2 s2.
Proof.
  split; [apply lang_cat_inv |].
  intros [s1 [s2 [-> [H1 H2]]]]. constructor; assumption.
Qed.

Lemma lang_cls_iff (p : ascii -> bool) (s : string) :
  lang (Cls p) s <-> exists c, s = String c EmptyString /\ p c = true.
Proof.
  split; [apply lang_cls_inv |].
  intros [c [-> Hc]]. constructor. exact Hc.
Qed.

Lemma lang_Lit (w s : string) : lang (Lit w) s <-> s = w.
Proof.
  revert s. induction w as [| c w IH]; intros s; simpl.
  - split; [apply lang_eps_inv | intros ->; constructor].
  - rewrite lang_cat_iff. split.
    + intros [s1 [s2 [-> [H1 H2]]]]. apply lang_cls_inv in H1.
      destruct H1 as [c' [-> Hc]]. apply Ascii.eqb_eq in Hc. subst c'.
      apply IH in H2. subst s2. reflexivity.
    + intros ->. exists (String c EmptyString), w. split; [reflexivity |].
      split; [constructor; apply Ascii.eqb_refl | apply IH; reflexivity].
Qed.

Lemma lang_star_cls (p : ascii -> bool) (s : string) :
  lang (Star (Cls p)) s <-> all_chars p s = true.
Proof.
  split.
  - induction s as [| c s IH]; intros H; simpl; [reflexivity |].
    destruct (lang_star_uncons _ _ H c s eq_refl) as [s1 [s2 [-> [H1 H2]]]].
    apply lang_cls_inv in H1. destruct H1 as [c' [Heq Hc]].
    injection Heq as <- ->. rewrite Hc. apply IH. exact H2.
  - induction s as [| c s IH]; simpl; intros H; [constructor |].
    apply andb_true_iff in H. destruct H as [Hc Hs].
    exact (lang_star_cons (Cls p) (String c EmptyString) s
             (lang_cls p c Hc) (IH Hs)).
Qed.

Lemma lang_plus_cls (p : ascii -> bool) (s : string) :
  lang (Plus (Cls p)) s <-> s <> EmptyString /\ all_chars p s = true.
Proof.
  unfold Plus. rewrite lang_cat_iff. split.
  - intros [s1 [s2 [-> [H1 H2]]]]. apply lang_cls_inv in H1.
    destruct H1 as [c [-> Hc]]. apply lang_star_cls in H2. simpl.
    rewrite Hc, H2. split; [discriminate | reflexivity].
  - intros [Hne H]. destruct s as [| c s]; [contradiction |]. simpl in H.
    apply andb_true_iff in H. destruct H as [Hc Hs].
    exists (String c EmptyString), s. split; [reflexivity |].
    split; [constructor; exact Hc | apply lang_star_cls; exact Hs].
Qed.

Lemma lang_Opt (r : regex) (s : string) :
  lang (Opt r) s <-> s = EmptyString \/ lang r s.
Proof.
  unfold Opt. split.
  - intros H. apply lang_alt_inv in H. destruct H as [H | H];
      [left; apply lang_eps_inv; exact H | right; exact H].
  - intros [-> | H]; [apply lang_alt_l; constructor | apply lang_alt_r; exact H].
Qed.

Lemma chomp_Some (s w : string) : chomp s = Some w <-> s = w ++ nl.
Proof.
  revert w. induction s as [| c s IH]; intros w.
  - simpl. split; [discriminate |]. intros H. symmetry in H.
    apply append_eq_nil in H. destruct H as [_ H]. discriminate H.
  - destruct s as [| c' s].
    + simpl. destruct (is_char 10 c) eqn:Hc.
      * assert (c = "010"%char).
        { destruct c as [b0 b1 b2 b3 b4 b5 b6 b7].
          destruct b0, b1, b2, b3, b4, b5, b6, b7; try discriminate Hc; reflexivity. }
        subst c. split.
        -- intros H. injection H as <-. reflexivity.
        -- intros H. destruct w as [| a w]; [reflexivity |]. simpl in H.
           injection H as _ H. symmetry in H. apply append_eq_nil in H.
           destruct H as [_ H]. discriminate H.
      * split; [discriminate |]. intros H. destruct w as [| a w]; simpl in H.
        -- injection H as ->. discriminate Hc.
        -- injection H as _ H. symmetry in H. apply append_eq_nil in H.
           destruct H as [_ H]. discriminate H.
    + change (chomp (String c (String c' s)))
        with (option_map (String c) (chomp (String c' s))).
      destruct (chomp (String c' s)) as [w' |]; simpl.
      * pose proof (proj1 (IH w') eq_refl) as Hs. split.
        -- intros H. injection H as <-. rewrite Hs. reflexivity.
        -- intros H. destruct w as [| a w]; simpl in H; [discriminate H |].
           injection H as <- H. apply IH in H. injection H as ->. reflexivity.
      * split; [discriminate |]. intros H. destruct w as [| a w]; simpl in H;
          [discriminate H |]. injection H as _ H. apply IH in H. discriminate H.
Qed.

(** A pattern closed by [$] matches the texts of its language and those
    followed by one newline. *)
Lemma match_dollar_lang (r : regex) (s : string) :
  match_dollar r s = true <-> lang r s \/ exists w, s = w ++ nl /\ lang r w.
Proof.
  unfold match_dollar. rewrite orb_true_iff, matches_lang. split.
  - intros [H | H]; [left; exact H | right].
    destruct (chomp s) as [w |] eqn:E; [| discriminate H].
    exists w. split; [apply chomp_Some; exact E | apply matches_lang; exact H].
  - intros [H | [w [Hs H]]]; [left; exact H | right].
    apply chomp_Some in Hs. rewrite Hs. apply matches_lang. exact H.
Qed.

(** ** The validators *)

Lemma rstrip_by_nil (p : ascii -> bool) (s : string) :
  rstrip_by p s = EmptyString <-> all_chars p s = true.
Proof.
  induction s as [| c s IH]; simpl; [split; reflexivity |].
  destruct (rstrip_by p s) as [| c' t].
  - destruct (p c); simpl.
    + rewrite <- IH. split; reflexivity.
    + split; discriminate.
  - split; [discriminate |]. intros H. apply andb_true_iff in H.
    destruct H as [_ H]. apply IH in H. discriminate H.
Qed.

Lemma all_chars_lstrip_by (p : ascii -> bool) (s : string) :
  all_chars p (lstrip_by p s) = all_chars p s.
Proof.
  induction s as [| c s IH]; simpl; [reflexivity |].
  destruct (p c) eqn:Hc; simpl; [exact IH | rewrite Hc; reflexivity].
Qed.

Lemma strip_nil (s : string) :
  strip s = EmptyString <-> all_chars py_isspace s = true.
Proof.
  unfold strip, strip_by. rewrite rstrip_by_nil. rewrite all_chars_lstrip_by.
  reflexivity.
Qed.

(** X1. [required] rejects exactly [None] and the strings made of
    whitespace only (the empty string among them); every other value,
    [0] and [False] included, counts as present. *)
Theorem required_rejects_blank (value : Value) :
  FieldValidator.required value = false
  <-> value = VNone \/ exists s, value = VStr s /\ all_chars py_isspace s = true.
Proof.
  destruct value as [| b | z | s]; simpl.
  - split; [intros _; left; reflexivity | reflexivity].
  - split; [discriminate | intros [H | [s [H _]]]; discriminate H].
  - split; [discriminate | intros [H | [s [H _]]]; discriminate H].
  - destruct (String.eqb (strip s) EmptyString) eqn:E.
    + apply String.eqb_eq in E. apply strip_nil in E. split; [| reflexivity].
      intros _. right. exists s. split; [reflexivity | exact E].
    + apply String.eqb_neq in E. split; [discriminate |].
      intros [H | [s' [H Hs]]]; [discriminate H |].
      injection H as <-. apply strip_nil in Hs. contradiction.
Qed.

Lemma all_alpha_two (t : string) :
  (exists a b rest, t = String a (String b rest) /\ is_alpha a = true /\
                    is_alpha b = true /\ all_chars is_alpha rest = true)
  <-> (2 <= String.length t)%nat /\ all_chars is_alpha t = true.
Proof.
  split.
  - intros [a [b [rest [-> [Ha [Hb Hrest]]]]]]. simpl. rewrite Ha, Hb, Hrest.
    split; [lia | reflexivity].
  - intros [Hlen H]. destruct t as [| a [| b rest]]; simpl in Hlen; try lia.
    simpl in H. apply andb_true_iff in H. destruct H as [Ha H].
    apply andb_true_iff in H. destruct H as [Hb Hrest].
    exists a, b, rest. repeat split; assumption.
Qed.

(** The texts of the e-mail pattern. *)
Lemma lang_email_pattern (s : string) :
  lang email_pattern s
  <-> exists local domain tld,
        s = local ++ "@" ++ domain ++ "." ++ tld /\
        local <> EmptyString /\ all_chars email_local local = true /\
        domain <> EmptyString /\ all_chars email_domain domain = true /\
        (2 <= String.length tld)%nat /\ all_chars is_alpha tld = true.
Proof.
  unfold email_pattern. split.
  - intros H.
    apply lang_cat_inv in H. destruct H as [local [s1 [-> [Hlocal H]]]].
    apply lang_cat_inv in H. destruct H as [at_ [s2 [-> [Hat H]]]].
    apply lang_cat_inv in H. destruct H as [domain [s3 [-> [Hdomain H]]]].
    apply lang_cat_inv in H. destruct H as [dot [tld [-> [Hdot H]]]].
    apply lang_Lit in Hat. apply lang_Lit in Hdot. subst at_ dot.
    apply (lang_plus_cls email_local) in Hlocal.
    apply (lang_plus_cls email_domain) in Hdomain.
    assert (Htld : (2 <= String.length tld)%nat /\ all_chars is_alpha tld = true).
    { apply all_alpha_two.
      apply lang_cat_inv in H. destruct H as [a [t1 [-> [Ha H]]]].
      apply lang_cat_inv in H. destruct H as [b [rest [-> [Hb H]]]].
      apply lang_cls_inv in Ha. destruct Ha as [ca [-> Ha]].
      apply lang_cls_inv in Hb. destruct Hb as [cb [-> Hb]].
      apply lang_star_cls in H. exists ca, cb, rest. repeat split; assumption. }
    exists local, domain, tld. split; [reflexivity |]. tauto.
  - intros [local [domain [tld [-> [Hl1 [Hl2 [Hd1 [Hd2 Htld]]]]]]]].
    apply all_alpha_two in Htld.
    destruct Htld as [a [b [rest [-> [Ha [Hb Hrest]]]]]].
    apply lang_cat. { apply (lang_plus_cls email_local). split; assumption. }
    apply lang_cat. { apply lang_Lit. reflexivity. }
    apply lang_cat. { apply (lang_plus_cls email_domain). split; assumption. }
    apply lang_cat. { apply lang_Lit. reflexivity. }
    apply (lang_cat _ _ (String a EmptyString) (String b rest)).
    { constructor. exact Ha. }
    apply (lang_cat _ _ (String b EmptyString) rest).
    { constructor. exact Hb. }
    apply lang_star_cls. exact Hrest.
Qed.

(** X2. On a non-empty value, [email] accepts exactly the texts
    [local@domain.tld], where [local] is a non-empty run of letters,
    digits and [._%+-], [domain] a non-empty run of letters, digits, dots
    and hyphens, and [tld] at least two letters, and the same texts
    followed by one newline.  The text is [str(value)]. *)
Theorem email_accepts (value : Value) :
  truthy value = true ->
  (FieldValidator.email value = true
   <-> exists local domain tld,
         (py_str value = local ++ "@" ++ domain ++ "." ++ tld \/
          py_str value = (local ++ "@" ++ domain ++ "." ++ tld) ++ nl) /\
         local <> EmptyString /\ all_chars email_local local = true /\
         domain <> EmptyString /\ all_chars email_domain domain = true /\
         (2 <= String.length tld)%nat /\ all_chars is_alpha tld = true).
Proof.
  intros Htruthy. unfold FieldValidator.email. rewrite Htruthy. simpl.
  rewrite match_dollar_lang. split.
  - intros [H | [w [Hs H]]]; apply lang_email_pattern in H;
      destruct H as [local [domain [tld [Heq Hrest]]]];
      exists local, domain, tld; (split; [| exact Hrest]).
    + left. exact Heq.
    + right. rewrite Hs, Heq. reflexivity.
  - intros [local [domain [tld [[Heq | Heq] Hrest]]]].
    + left. apply lang_email_pattern. exists local, domain, tld.
      split; [exact Heq | exact Hrest].
    + right. exists (local ++ "@" ++ domain ++ "." ++ tld).
      split; [exact Heq |]. apply lang_email_pattern.
      exists local, domain, tld. split; [reflexivity | exact Hrest].
Qed.

(** The texts of the URL pattern. *)
Lemma lang_url_pattern (s : string) :
  lang url_pattern s
  <-> exists scheme c1 c2 rest,
        (scheme = "http" \/ scheme = "https") /\
        s = scheme ++ "://" ++ String c1 (String c2 rest) /\
        url_first c1 = true /\ not_newline c2 = true /\
        all_chars not_space rest = true.
Proof.
  unfold url_pattern. split.
  - intros H.
    apply lang_cat_inv in H. destruct H as [http [s1 [-> [Hhttp H]]]].
    apply lang_cat_inv in H. destruct H as [opt [s2 [-> [Hopt H]]]].
    apply lang_cat_inv in H. destruct H as [sep [s3 [-> [Hsep H]]]].
    apply lang_cat_inv in H. destruct H as [a [s4 [-> [Ha H]]]].
    apply lang_cat_inv in H. destruct H as [b [rest [-> [Hb H]]]].
    apply lang_Lit in Hhttp. apply lang_Lit in Hsep. subst http sep.
    apply lang_cls_inv in Ha. destruct Ha as [c1 [-> Hc1]].
    apply lang_cls_inv in Hb. destruct Hb as [c2 [-> Hc2]].
    apply lang_star_cls in H.
    apply lang_Opt in Hopt. destruct Hopt as [-> | Hopt].
    + exists "http", c1, c2, rest. split; [left; reflexivity |].
      split; [reflexivity |]. repeat split; assumption.
    + apply lang_Lit in Hopt. subst opt.
      exists "https", c1, c2, rest. split; [right; reflexivity |].
      split; [reflexivity |]. repeat split; assumption.
  - intros [scheme [c1 [c2 [rest [Hscheme [-> [Hc1 [Hc2 Hrest]]]]]]]].
    assert (Htail : lang (Cat (Lit "://")
                           (Cat (Cls url_first)
                              (Cat (Cls not_newline) (Star (Cls not_space)))))
                      ("://" ++ String c1 (String c2 rest))).
    { apply lang_cat. { apply lang_Lit. reflexivity. }
      apply (lang_cat _ _ (String c1 EmptyString) (String c2 rest)).
      { constructor. exact Hc1. }
      apply (lang_cat _ _ (String c2 EmptyString) rest).
      { constructor. exact Hc2. }
      apply lang_star_cls. exact Hrest. }
    destruct Hscheme as [-> | ->].
    + apply (lang_cat _ _ "http" _). { apply lang_Lit. reflexivity. }
      apply (lang_cat _ _ EmptyString _). { apply lang_Opt. left. reflexivity. }
      exact Htail.
    + apply (lang_cat _ _ "http" ("s" ++ "://" ++ String c1 (String c2 rest))).
      { apply lang_Lit. reflexivity. }
      apply (lang_cat _ _ "s" _).
      { apply lang_Opt. right. apply lang_Lit. reflexivity. }
      exact Htail.
Qed.

(** X3. On a non-empty value, [url] accepts exactly the texts that
    start with [http://] or [https://] and go on with at least two
    characters: one that is neither whitespace nor one of [/$.?#], one
    that is not a newline, and then any run without whitespace; and the
    same texts followed by one newline.  The text is [str(value)]. *)
Theorem url_accepts (value : Value) :
  truthy value = true ->
  (FieldValidator.url value = true
   <-> exists scheme c1 c2 rest,
         (scheme = "http" \/ scheme = "https") /\
         (py_str value = scheme ++ "://" ++ String c1 (String c2 rest) \/
          py_str value = (scheme ++ "://" ++ String c1 (String c2 rest)) ++ nl) /\
         url_first c1 = true /\ not_newline c2 = true /\
         all_chars not_space rest = true).
Proof.
  intros Htruthy. unfold FieldValidator.url. rewrite Htruthy. simpl.
  rewrite match_dollar_lang. split.
  - intros [H | [w [Hs H]]]; apply lang_url_pattern in H;
      destruct H as [scheme [c1 [c2 [rest [Hscheme [Heq Hrest]]]]]];
      exists scheme, c1, c2, rest; (split; [exact Hscheme |]);
      (split; [| exact Hrest]).
    + left. exact Heq.
    + right. rewrite Hs, Heq. reflexivity.
  - intros [scheme [c1 [c2 [rest [Hscheme [[Heq | Heq] Hrest]]]]]].
    + left. apply lang_url_pattern. exists scheme, c1, c2, rest.
      split; [exact Hscheme |]. split; [exact Heq | exact Hrest].
    + right. exists (scheme ++ "://" ++ String c1 (String c2 rest)).
      split; [exact Heq |]. apply lang_url_pattern.
      exists scheme, c1, c2, rest. split; [exact Hscheme |].
      split; [reflexivity | exact Hrest].
Qed.

(** ** [float] on integers *)

Lemma floor_log2_ratio_one (z : Z) : 0 < z -> floor_log2_ratio z 1 = Z.log2 z.
Proof.
  intros Hz. unfold floor_log2_ratio. change (Z.log2 1) with 0. rewrite Z.sub_0_r.
  pose proof (Z.log2_nonneg z) as Hk.
  rewrite (Z.max_r 0 (Z.log2 z)) by lia. rewrite (Z.max_l 0 (- Z.log2 z)) by lia.
  change (2 ^ 0) with 1. rewrite Z.mul_1_l, Z.mul_1_r.
  destruct (Z.log2_spec z Hz) as [Hlo _].
  destruct (Z.leb_spec (2 ^ Z.log2 z) z); [reflexivity | lia].
Qed.

Lemma round_half_even_one (n : Z) : round_half_even n 1 = n.
Proof.
  unfold round_half_even. rewrite Z.div_1_r, Z.mod_1_r. reflexivity.
Qed.

Lemma nearest_double_exact (negative : bool) (z : Z) :
  0 < z <= 2 ^ 53 ->
  exists m e,
    nearest_double negative z 1 = FFin (if negative then - m else m) e /\
    m * 2 ^ Z.max 0 e = z * 2 ^ Z.max 0 (- e).
Proof.
  intros [Hpos Hle]. unfold nearest_double.
  destruct (Z.eqb_spec z 0) as [H0 | _]; [lia |].
  rewrite floor_log2_ratio_one by exact Hpos.
  assert (Hk : 0 <= Z.log2 z <= 53).
  { split; [apply Z.log2_nonneg |].
    change 53 with (Z.log2 (2 ^ 53)). apply Z.log2_le_mono. exact Hle. }
  destruct (Z.eq_dec (Z.log2 z) 53) as [H53 | H53].
  - assert (z = 2 ^ 53).
    { destruct (Z.log2_spec z Hpos) as [Hlo _]. rewrite H53 in Hlo. lia. }
    subst z. exists (2 ^ 52), 1. destruct negative; vm_compute; split; reflexivity.
  - rewrite (Z.max_l (Z.log2 z - 52) (-1074)) by lia.
    rewrite (Z.max_r 0 (- (Z.log2 z - 52))) by lia.
    rewrite (Z.max_l 0 (Z.log2 z - 52)) by lia.
    change (2 ^ 0) with 1. rewrite Z.mul_1_l, round_half_even_one.
    assert (Hm : 0 < z * 2 ^ (- (Z.log2 z - 52))).
    { apply Z.mul_pos_pos; [exact Hpos | apply Z.pow_pos_nonneg; lia]. }
    destruct (Z.eqb_spec (z * 2 ^ (- (Z.log2 z - 52))) 0) as [H0 | _]; [lia |].
    rewrite Z.log2_mul_pow2 by lia.
    destruct (Z.leb_spec 1024 (- (Z.log2 z - 52) + Z.log2 z + (Z.log2 z - 52)));
      [lia |].
    exists (z * 2 ^ (- (Z.log2 z - 52))), (Z.log2 z - 52).
    split; [reflexivity |].
    rewrite (Z.max_l 0 (Z.log2 z - 52)) by lia.
    rewrite (Z.max_r 0 (- (Z.log2 z - 52))) by lia.
    change (2 ^ 0) with 1. lia.
Qed.

Lemma py_float_int_exact (z : Z) :
  Z.abs z <= 2 ^ 53 ->
  exists m e,
    py_float (VInt z) = Ok (FFin m e) /\
    m * 2 ^ Z.max 0 e = z * 2 ^ Z.max 0 (- e).
Proof.
  intros Hz. destruct (Z.eq_dec z 0) as [-> | Hne].
  - exists 0, 0. split; reflexivity.
  - assert (Habs : 0 < Z.abs z <= 2 ^ 53) by lia.
    destruct (nearest_double_exact (z <? 0) (Z.abs z) Habs) as [m [e [Hf Hm]]].
    exists (if z <? 0 then - m else m), e. unfold py_float. rewrite Hf.
    split; [reflexivity |].
    destruct (Z.ltb_spec z 0).
    + rewrite Z.mul_opp_l, Hm. rewrite (Z.abs_neq z) by lia. lia.
    + rewrite Hm. rewrite (Z.abs_eq z) by lia. reflexivity.
Qed.

Lemma float_order_exact (m e z n : Z) :
  m * 2 ^ Z.max 0 e = z * 2 ^ Z.max 0 (- e) ->
  float_ge (FFin m e) n = (n <=? z) /\ float_le (FFin m e) n = (z <=? n).
Proof.
  intros Hm. unfold float_ge, float_le. destruct (Z.leb_spec 0 e) as [He | He].
  - rewrite (Z.max_r 0 e) in Hm by lia. rewrite (Z.max_l 0 (- e)) in Hm by lia.
    change (2 ^ 0) with 1 in Hm. rewrite Z.mul_1_r in Hm. rewrite Hm.
    split; reflexivity.
  - rewrite (Z.max_l 0 e) in Hm by lia. rewrite (Z.max_r 0 (- e)) in Hm by lia.
    change (2 ^ 0) with 1 in Hm. rewrite Z.mul_1_r in Hm. subst m.
    assert (Hp : 0 < 2 ^ (- e)) by (apply Z.pow_pos_nonneg; lia).
    split.
    + destruct (Z.leb_spec n z) as [H | H];
        destruct (Z.leb_spec (n * 2 ^ (- e)) (z * 2 ^ (- e))) as [H' | H'];
        try reflexivity; exfalso.
      * apply (Z.mul_le_mono_pos_r _ _ _ Hp) in H. lia.
      * apply (Z.mul_le_mono_pos_r _ _ _ Hp) in H'. lia.
    + destruct (Z.leb_spec z n) as [H | H];
        destruct (Z.leb_spec (z * 2 ^ (- e)) (n * 2 ^ (- e))) as [H' | H'];
        try reflexivity; exfalso.
      * apply (Z.mul_le_mono_pos_r _ _ _ Hp) in H. lia.
      * apply (Z.mul_le_mono_pos_r _ _ _ Hp) in H'. lia.
Qed.

(** X4. On an integer of magnitude up to [2^53] the value rules
    compare exactly: [min_value] accepts when the bound is at most the
    value and [max_value] when the value is at most the bound, both
    bounds included.  [float(value)] loses nothing on such a value. *)
Theorem value_rules_exact (z n : Z) :
  Z.abs z <= 2 ^ 53 ->
  FieldValidator.min_value (VInt z) (PVal (VInt n)) = Ok (n <=? z) /\
  FieldValidator.max_value (VInt z) (PVal (VInt n)) = Ok (z <=? n).
Proof.
  intros Hz. destruct (py_float_int_exact z Hz) as [m [e [Hf Hm]]].
  destruct (float_order_exact m e z n Hm) as [Hge Hle].
  unfold FieldValidator.min_value, FieldValidator.max_value.
  rewrite Hf. cbn [bind]. unfold float_ge_param, float_le_param. cbn [as_number].
  rewrite Hge, Hle. split; reflexivity.
Qed.

(** Past [2^53] the conversion rounds: [2^53 + 1] becomes [2^53] and
    fails its own value as a lower bound. *)
Lemma value_rules_round_past_2_53 :
  FieldValidator.min_value (VInt (2 ^ 53 + 1)) (PVal (VInt (2 ^ 53 + 1))) = Ok false.
Proof. vm_compute. reflexivity. Qed.

(** An age of 150 against the bounds 0 and 120. *)
Lemma value_rules_exact_witness :
  FieldValidator.min_value (VInt 150) (PVal (VInt 0)) = Ok true /\
  FieldValidator.max_value (VInt 150) (PVal (VInt 120)) = Ok false.
Proof.
  split.
  - apply (proj1 (value_rules_exact 150 0 ltac:(vm_compute; discriminate))).
  - apply (proj2 (value_rules_exact 150 120 ltac:(vm_compute; discriminate))).
Defined.

(** ** [validate]: the shape of its result *)

Section ValidateShape.

Variable re_match : regex_engine.

Lemma validate_fields_ext (data data' : pydict Value) (items : pydict FormField.t) :
  (forall name field, In (name, field) items ->
     resolved data name field = resolved data' name field) ->
  forall errors validated,
  Form.validate_fields re_match items data errors validated
  = Form.validate_fields re_match items data' errors validated.
Proof.
  induction items as [| [n f] items IH]; intros Hagree errors validated.
  - reflexivity.
  - cbn [Form.validate_fields]. fold (resolved data n f). fold (resolved data' n f).
    rewrite <- (Hagree n f (or_introl eq_refl)).
    assert (Hrest : forall name field, In (name, field) items ->
                      resolved data name field = resolved data' name field).
    { intros name field Hin. apply Hagree. right. exact Hin. }
    destruct (FormField.required f && negb (FieldValidator.required _)).
    + apply IH. exact Hrest.
    + destruct (Form.run_validators re_match n f _ _ errors); simpl;
        [apply IH; exact Hrest | reflexivity].
Qed.

(** X5. [validate] reads the data through the resolved values of the
    fields of the form and nothing else: two submissions that resolve
    every field alike get the same result, errors and exceptions
    included.  Keys that name no field are ignored, and submitting the
    default of a field is the same as leaving the field out. *)
Theorem validate_reads_resolved_values (self : Form.t) (data data' : pydict Value) :
  (forall name field, In (name, field) (Form.fields self) ->
     resolved data name field = resolved data' name field) ->
  Form.validate re_match self data = Form.validate re_match self data'.
Proof.
  intros Hagree. unfold Form.validate.
  rewrite (validate_fields_ext data data' _ Hagree). reflexivity.
Qed.

(** What one validator appends does not depend on the errors so far. *)
Lemma check_validator_chunk (name : string) (field : FormField.t) (value : Value)
    (v : FormField.validator) (errors errors' : list ValidationError.t) :
  Form.check_validator re_match name field value errors v = Ok errors' ->
  exists chunk,
    errors' = (errors ++ chunk)%list /\
    (forall errors0,
       Form.check_validator re_match name field value errors0 v
       = Ok (errors0 ++ chunk)%list) /\
    Forall (fun e => ValidationError.field e = name) chunk.
Proof.
  destruct v as [[rule param] message]. unfold Form.check_validator.
  destruct (Form.evaluate re_match name field value rule param)
    as [[valid default_msg] | e]; simpl; [| discriminate].
  destruct valid; simpl; intros H; injection H as <-.
  - exists []. split; [symmetry; apply app_nil_r |].
    split; [intros errors0; rewrite app_nil_r; reflexivity | constructor].
  - eexists. split; [reflexivity |]. split; [intros errors0; reflexivity |].
    constructor; [reflexivity | constructor].
Qed.

Lemma run_validators_chunk (name : string) (field : FormField.t) (value : Value)
    (vs : list FormField.validator) :
  forall errors errors',
  Form.run_validators re_match name field value vs errors = Ok errors' ->
  exists chunk,
    errors' = (errors ++ chunk)%list /\
    (forall errors0,
       Form.run_validators re_match name field value vs errors0
       = Ok (errors0 ++ chunk)%list) /\
    Forall (fun e => ValidationError.field e = name) chunk.
Proof.
  induction vs as [| v vs IH]; simpl; intros errors errors' H.
  - injection H as <-. exists []. split; [symmetry; apply app_nil_r |].
    split; [intros errors0; rewrite app_nil_r; reflexivity | constructor].
  - apply bind_Ok_inv in H. destruct H as [errors1 [H1 H2]].
    apply check_validator_chunk in H1. destruct H1 as [c1 [-> [Hc1 Hf1]]].
    apply IH in H2. destruct H2 as [c2 [-> [Hc2 Hf2]]].
    exists (c1 ++ c2)%list. split; [symmetry; apply app_assoc |].
    split.
    + intros errors0. rewrite Hc1. simpl. rewrite Hc2, app_assoc. reflexivity.
    + apply Forall_app. split; assumption.
Qed.

Lemma validate_fields_chunks (data : pydict Value) (items : pydict FormField.t) :
  forall errors validated errors' validated',
  Form.validate_fields re_match items data errors validated = Ok (errors', validated') ->
  exists chunks,
    errors' = (errors ++ concat chunks)%list /\
    Forall2 (fun item chunk =>
               (exists recorded,
                  Form.validate_fields re_match [item] data [] []
                  = Ok (chunk, recorded)) /\
               Forall (fun e => ValidationError.field e = fst item) chunk)
            items chunks.
Proof.
  induction items as [| [n f] items IH]; intros errors validated errors' validated' H.
  - injection H as <- _. exists []. split; [symmetry; apply app_nil_r | constructor].
  - cbn [Form.validate_fields] in H.
    destruct (FormField.required f && negb (FieldValidator.required _)) eqn:Hgate.
    + apply IH in H. destruct H as [chunks [-> Hall]].
      exists ([required_error n f] :: chunks). split.
      * unfold append, required_error. simpl. rewrite <- app_assoc. reflexivity.
      * constructor; [| exact Hall]. split.
        -- exists []. cbn [Form.validate_fields]. rewrite Hgate. reflexivity.
        -- constructor; [reflexivity | constructor].
    + apply bind_Ok_inv in H. destruct H as [errors1 [H1 H2]].
      apply run_validators_chunk in H1. destruct H1 as [chunk [-> [Hchunk Hfield]]].
      apply IH in H2. destruct H2 as [chunks [-> Hall]].
      exists (chunk :: chunks). split.
      * simpl. rewrite <- app_assoc. reflexivity.
      * constructor; [| exact Hall]. split.
        -- eexists. cbn [Form.validate_fields]. rewrite Hgate, Hchunk. reflexivity.
        -- exact Hfield.
Qed.

(** X6. The errors of [validate] come field by field in declaration
    order: they are the errors each field gets when it is validated on
    its own against the same data, one group after the other, and every
    error of a group names the field of the group. *)
Theorem validate_errors_by_field (self : Form.t) (data : pydict Value)
    (fd : FormData.t) :
  Form.validate re_match self data = Ok fd ->
  exists chunks,
    FormData.errors fd = concat chunks /\
    Forall2 (fun item chunk =>
               (exists recorded,
                  Form.validate_fields re_match [item] data [] []
                  = Ok (chunk, recorded)) /\
               Forall (fun e => ValidationError.field e = fst item) chunk)
            (Form.fields self) chunks.
Proof.
  intros H. unfold Form.validate in H.
  apply bind_Ok_inv in H. destruct H as [[errors validated] [H1 H2]].
  injection H2 as <-. simpl.
  apply validate_fields_chunks in H1. destruct H1 as [chunks [-> Hall]].
  exists chunks. split; [reflexivity | exact Hall].
Qed.

Lemma dict_set_fresh {A : Type} (d : pydict A) (k : string) (v : A) :
  ~ In k (keys d) -> dict_set d k v = (d ++ [(k, v)])%list.
Proof.
  induction d as [| [k' v'] d IH]; simpl; intros H.
  - reflexivity.
  - destruct (String.eqb k' k) eqn:E.
    + apply String.eqb_eq in E. exfalso. apply H. left. exact E.
    + rewrite IH; [reflexivity |]. intros Hin. apply H. right. exact Hin.
Qed.

Lemma validate_fields_recorded (data : pydict Value) (items : pydict FormField.t) :
  NoDup (keys items) ->
  forall errors validated errors' validated',
  (forall k, In k (keys items) -> ~ In k (keys validated)) ->
  Form.validate_fields re_match items data errors validated = Ok (errors', validated') ->
  validated'
  = (validated
     ++ map (fun item => (fst item, resolved data (fst item) (snd item)))
            (filter (fun item =>
                       negb (gated (snd item) (resolved data (fst item) (snd item))))
                    items))%list.
Proof.
  induction items as [| [n f] items IH]; intros Hnd errors validated errors' validated'
    Hfresh H.
  - injection H as _ <-. symmetry. apply app_nil_r.
  - inversion Hnd as [| x l Hnotin Hnd']; subst.
    cbn [Form.validate_fields] in H. cbn [filter fst snd].
    fold (resolved data n f) in *. fold (gated f (resolved data n f)) in *.
    destruct (gated f (resolved data n f)); cbn [negb].
    + apply (IH Hnd' _ _ _ _) in H; [exact H |].
      intros k Hk. apply Hfresh. right. exact Hk.
    + apply bind_Ok_inv in H. destruct H as [errors1 [_ H]].
      apply (IH Hnd' _ _ _ _) in H.
      * rewrite H. rewrite dict_set_fresh by (apply Hfresh; left; reflexivity).
        rewrite <- app_assoc. reflexivity.
      * intros k Hk Hin.
        rewrite dict_set_fresh in Hin by (apply Hfresh; left; reflexivity).
        unfold keys in Hin. rewrite map_app in Hin. apply in_app_or in Hin.
        destruct Hin as [Hin | [Hin | []]].
        -- exact (Hfresh k (or_intror Hk) Hin).
        -- simpl in Hin. subst k. exact (Hnotin Hk).
Qed.

(** X7. The [fields] of the result hold, in declaration order, the
    resolved value of every field that the required gate did not stop,
    and nothing else: a field that fails an attached validator is in, a
    required field with a missing value is out. *)
Theorem validate_recorded_fields (self : Form.t) (data : pydict Value)
    (fd : FormData.t) :
  NoDup (keys (Form.fields self)) ->
  Form.validate re_match self data = Ok fd ->
  FormData.fields fd
  = map (fun item => (fst item, resolved data (fst item) (snd item)))
        (filter (fun item =>
                   negb (gated (snd item) (resolved data (fst item) (snd item))))
                (Form.fields self)).
Proof.
  intros Hnd H. unfold Form.validate in H.
  apply bind_Ok_inv in H. destruct H as [[errors validated] [H1 H2]].
  injection H2 as <-. simpl.
  apply (validate_fields_recorded data _ Hnd) in H1; [exact H1 |].
  intros k _ [].
Qed.



End ValidateShape.

(** A key that names no field changes nothing. *)
Lemma validate_reads_resolved_values_witness :
  Form.validate plain_engine signup_form (("referrer", VStr "ad") :: good_submission)
  = Form.validate plain_engine signup_form good_submission.
Proof.
  apply validate_reads_resolved_values. intros name field Hin. simpl in Hin.
  destruct Hin as [H | [H | [H | []]]]; injection H as <- <-; reflexivity.
Defined.

(** The sign-up form with an empty password: no error for [email], one
    for [password], one for [age]. *)
Lemma validate_errors_by_field_witness :
  exists chunks,
    [ValidationError.mk "password" "required" "Password is required";
     ValidationError.mk "age" "max_value" "Maximum value is 120"]
    = concat chunks /\
    Forall2 (fun item chunk =>
               (exists recorded,
                  Form.validate_fields plain_engine [item] empty_password [] []
                  = Ok (chunk, recorded)) /\
               Forall (fun e => ValidationError.field e = fst item) chunk)
            (Form.fields signup_form) chunks.
Proof.
  exact (validate_errors_by_field plain_engine signup_form empty_password
           (FormData.mk [("email", VStr "user@example.com"); ("age", VInt 150)] false
              [ValidationError.mk "password" "required" "Password is required";
               ValidationError.mk "age" "max_value" "Maximum value is 120"])
           eq_refl).
Defined.

(** The same submission: [email] and [age] are recorded, [password] is
    not. *)
Lemma validate_recorded_fields_witness :
  [("email", VStr "user@example.com"); ("age", VInt 150)]
  = map (fun item => (fst item, resolved empty_password (fst item) (snd item)))
        (filter (fun item =>
                   negb (gated (snd item) (resolved empty_password (fst item) (snd item))))
                (Form.fields signup_form)).
Proof.
  apply (validate_recorded_fields plain_engine signup_form empty_password
           (FormData.mk [("email", VStr "user@example.com"); ("age", VInt 150)] false
              [ValidationError.mk "password" "required" "Password is required";
               ValidationError.mk "age" "max_value" "Maximum value is 120"])).
  - repeat constructor; simpl; intuition discriminate.
  - reflexivity.
Defined.

(** ** Rendering: what the value can change *)

Lemma count_chars_app (p : ascii -> bool) (s t : string) :
  count_chars p (s ++ t) = (count_chars p s + count_chars p t)%nat.
Proof.
  induction s as [| c s IH]; simpl; [reflexivity |]. rewrite IH. lia.
Qed.

Lemma count_delimiters_inert (s : string) :
  all_chars inert s = true -> count_chars delimiter s = O.
Proof.
  induction s as [| c s IH]; simpl; [reflexivity |].
  intros H. apply andb_true_iff in H. destruct H as [Hc Hs].
  unfold delimiter. rewrite Hc. simpl. apply IH. exact Hs.
Qed.

Lemma same_delimiters_app (s s' t t' : string) :
  same_delimiters s s' -> same_delimiters t t' ->
  same_delimiters (s ++ t) (s' ++ t').
Proof.
  unfold same_delimiters. intros H1 H2. rewrite !count_chars_app, H1, H2. reflexivity.
Qed.

Lemma same_delimiters_if (c : bool) (s s' t t' : string) :
  same_delimiters s s' -> same_delimiters t t' ->
  same_delimiters (if c then s else t) (if c then s' else t').
Proof. destruct c; intros H1 H2; assumption. Qed.

Lemma same_delimiters_join (sep : string) (l l' : list string) :
  Forall2 same_delimiters l l' ->
  same_delimiters (join sep l) (join sep l').
Proof.
  induction 1 as [| s s' l l' Hs Hl IH]; [reflexivity |].
  destruct Hl as [| t t' l l' Ht Hl]; [exact Hs |].
  change (same_delimiters (s ++ sep ++ join sep (t :: l))
            (s' ++ sep ++ join sep (t' :: l'))).
  apply same_delimiters_app; [exact Hs |].
  apply same_delimiters_app; [reflexivity | exact IH].
Qed.

Lemma Forall2_same_refl (l : list string) : Forall2 same_delimiters l l.
Proof. induction l; constructor; [reflexivity | assumption]. Qed.

Lemma Forall2_same_append (l l' : list string) (s s' : string) :
  Forall2 same_delimiters l l' -> same_delimiters s s' ->
  Forall2 same_delimiters (append l s) (append l' s').
Proof.
  intros Hl Hs. unfold append. apply Forall2_app; [exact Hl |].
  constructor; [exact Hs | constructor].
Qed.

Lemma Forall2_same_if (c : bool) (l l' m m' : list string) :
  Forall2 same_delimiters l l' -> Forall2 same_delimiters m m' ->
  Forall2 same_delimiters (if c then l else m) (if c then l' else m').
Proof. destruct c; intros H1 H2; assumption. Qed.

Lemma Forall2_same_fold {A : Type} (g g' : A -> string) (xs : list A) :
  (forall x, same_delimiters (g x) (g' x)) ->
  forall l l',
  Forall2 same_delimiters l l' ->
  Forall2 same_delimiters
    (fold_left (fun parts x => append parts (g x)) xs l)
    (fold_left (fun parts x => append parts (g' x)) xs l').
Proof.
  intros Hg. induction xs as [| x xs IH]; simpl; intros l l' Hl; [exact Hl |].
  apply IH. apply Forall2_same_append; [exact Hl | apply Hg].
Qed.

(** The three places where [_render_field] lets the value in. *)
Lemma same_delimiters_escaped (value value' : Value) :
  same_delimiters
    (if truthy value then html_escape (py_str value) else EmptyString)
    (if truthy value' then html_escape (py_str value') else EmptyString).
Proof.
  unfold same_delimiters.
  assert (H : forall v, count_chars delimiter
                          (if truthy v then html_escape (py_str v) else EmptyString) = O).
  { intros v. destruct (truthy v); [| reflexivity].
    apply count_delimiters_inert. apply html_escape_inert. }
  rewrite !H. reflexivity.
Qed.

Lemma same_delimiters_checked (value value' : Value) :
  same_delimiters (if truthy value then " checked" else EmptyString)
                  (if truthy value' then " checked" else EmptyString).
Proof. destruct (truthy value), (truthy value'); reflexivity. Qed.

Lemma same_delimiters_option (value value' : Value) (opt : FieldOption.t) :
  same_delimiters (Form.render_option value opt) (Form.render_option value' opt).
Proof.
  unfold Form.render_option.
  apply same_delimiters_app; [reflexivity |].
  apply same_delimiters_app; [reflexivity |].
  apply same_delimiters_app; [| reflexivity].
  destruct (String.eqb _ (py_str value)), (String.eqb _ (py_str value')); reflexivity.
Qed.

Ltac same_delimiters :=
  repeat first
    [ apply same_delimiters_escaped
    | apply same_delimiters_checked
    | reflexivity
    | apply Forall2_same_refl
    | apply same_delimiters_app
    | apply same_delimiters_if
    | apply same_delimiters_join
    | apply Forall2_same_append
    | apply Forall2_same_if
    | apply Forall2_same_fold; [intros opt; apply same_delimiters_option |] ].

Lemma render_field_same_delimiters (field : FormField.t) (value value' : Value) :
  same_delimiters (Form._render_field field value) (Form._render_field field value').
Proof.
  unfold Form._render_field. cbv zeta. same_delimiters.
Qed.

(** X9. The value cannot write markup: however the value is chosen,
    the text [_render_field] returns for a field has the same number of
    angle brackets and quotes, and so has the page [render_html] returns
    for a form, whatever data it is given.  The value only ever enters
    escaped, or as the [checked] and [selected] markers. *)
Theorem value_adds_no_delimiter :
  (forall field value value',
     count_chars delimiter (Form._render_field field value)
     = count_chars delimiter (Form._render_field field value')) /\
  (forall self data data',
     count_chars delimiter (Form.render_html self data)
     = count_chars delimiter (Form.render_html self data')).
Proof.
  split; [exact render_field_same_delimiters |].
  intros self data data'. unfold Form.render_html. cbv zeta.
  rewrite !render_fields_map. apply same_delimiters_join.
  repeat apply Forall2_same_append; try reflexivity.
  apply Forall2_app; [apply Forall2_same_refl |].
  induction (Form.fields self) as [| item items IH]; simpl; constructor;
    [apply render_field_same_delimiters | exact IH].
Qed.




(** ** The presets of [FormBuilder] *)

Section Presets.

Variable title : string -> string.
Variable re_match : regex_engine.







End Presets.


(** [user@example.com] has the three parts. *)
Lemma email_accepts_witness :
  FieldValidator.email (VStr "user@example.com") = true.
Proof.
  apply (proj2 (email_accepts (VStr "user@example.com") eq_refl)).
  exists "user", "example", "com". split; [left; reflexivity |].
  repeat split; try discriminate; try reflexivity. simpl. lia.
Defined.

(** [https://example.com] has a scheme and more than two characters
    after it. *)
Lemma url_accepts_witness :
  FieldValidator.url (VStr "https://example.com") = true.
Proof.
  apply (proj2 (url_accepts (VStr "https://example.com") eq_refl)).
  exists "https", "e"%char, "x"%char, "ample.com".
  split; [right; reflexivity |]. split; [left; reflexivity |].
  repeat split.
Defined.

(** ** [add_validator] and [validate] *)

Section AddValidator.

Variable re_match : regex_engine.

Lemma evaluate_label (name : string) (field field' : FormField.t) (value : Value)
    (rule : ValidationRule.t) (param : Param) :
  FormField.label field = FormField.label field' ->
  Form.evaluate re_match name field value rule param
  = Form.evaluate re_match name field' value rule param.
Proof. intros H. unfold Form.evaluate. rewrite H. reflexivity. Qed.

Lemma run_validators_label (name : string) (field field' : FormField.t)
    (value : Value) (vs : list FormField.validator) :
  FormField.label field = FormField.label field' ->
  forall errors,
  Form.run_validators re_match name field value vs errors
  = Form.run_validators re_match name field' value vs errors.
Proof.
  intros H. induction vs as [| [[rule param] message] vs IH]; intros errors.
  - reflexivity.
  - cbn [Form.run_validators]. unfold Form.check_validator.
    rewrite (evaluate_label name field field' value rule param H).
    destruct (Form.evaluate re_match name field' value rule param)
      as [[valid default_msg] | e]; simpl; [| reflexivity].
    destruct valid; simpl; apply IH.
Qed.

(** X14. [add_validator] puts the new validator last: on the field it
    returns, the validators attached before run first, with the outcome
    they had without it, and the new validator runs after them on the
    errors they left; if one of the earlier ones raises, the new one is
    not reached. *)
Theorem add_validator_runs_last (name : string) (field : FormField.t)
    (value : Value) (rule : ValidationRule.t) (param : Param)
    (message : option string) (errors : list ValidationError.t) :
  let field' := FormField.add_validator field rule param message in
  Form.run_validators re_match name field' value (FormField.validators field') errors
  = (errors' <- Form.run_validators re_match name field value
                  (FormField.validators field) errors ;;
     Form.check_validator re_match name field value errors' (rule, param, message)).
Proof.
  intros field'.
  assert (Hlabel : FormField.label field' = FormField.label field) by reflexivity.
  change (FormField.validators field')
    with (FormField.validators field ++ [(rule, param, message)])%list.
  rewrite run_validators_app.
  rewrite (run_validators_label name field' field value _ Hlabel).
  destruct (Form.run_validators re_match name field value
              (FormField.validators field) errors) as [errors' | e];
    simpl; [| reflexivity].
  unfold Form.check_validator.
  rewrite (evaluate_label name field' field value rule param Hlabel).
  destruct (Form.evaluate re_match name field value rule param)
    as [[valid default_msg] | e]; simpl; [| reflexivity].
  destruct valid; reflexivity.
Qed.

End AddValidator.

(** ** Numerals under the value rules *)

Lemma digit_char_facts (c : ascii) :
  is_digit c = true ->
  lower_char c = c /\ float_isspace c = false /\ is_char 95 c = false /\
  is_char 45 c = false /\ is_char 43 c = false /\
  Ascii.eqb (lower_char c) "i" = false /\ Ascii.eqb (lower_char c) "n" = false.
Proof.
  destruct c as [b0 b1 b2 b3 b4 b5 b6 b7].
  destruct b0, b1, b2, b3, b4, b5, b6, b7; intros H;
    try (vm_compute in H; discriminate H); vm_compute; repeat split.
Qed.

Lemma numeral_digits (d : Decimal.uint) :
  all_chars is_digit (NilEmpty.string_of_uint d) = true.
Proof. induction d; simpl; try reflexivity; exact IHd. Qed.

Ltac digit_step IH :=
  cbn [NilEmpty.string_of_uint take_digits Decimal.nb_digits Pos.of_uint_acc];
  change (is_digit _) with true; cbv iota;
  match goal with |- context [code ?c - 48] =>
    let v := eval vm_compute in (code c - 48) in
    change (code c - 48) with v
  end.

Lemma take_digits_acc (d : Decimal.uint) :
  forall acc count,
  take_digits (NilEmpty.string_of_uint d) (Zpos acc) count
  = (Zpos (Pos.of_uint_acc d acc), count + Z.of_nat (Decimal.nb_digits d),
     EmptyString).
Proof.
  induction d as [| d IH | d IH | d IH | d IH | d IH | d IH | d IH | d IH | d IH | d IH];
    intros acc count.
  - simpl. f_equal. f_equal. lia.
  - digit_step IH. replace (10 * Z.pos acc + 0) with (Zpos (Pos.mul 10 acc))
      by lia.
    rewrite IH. f_equal. f_equal. lia.
  - digit_step IH. replace (10 * Z.pos acc + 1) with (Zpos (Pos.add 1 (Pos.mul 10 acc)))
      by lia.
    rewrite IH. f_equal. f_equal. lia.
  - digit_step IH. replace (10 * Z.pos acc + 2) with (Zpos (Pos.add 2 (Pos.mul 10 acc)))
      by lia.
    rewrite IH. f_equal. f_equal. lia.
  - digit_step IH. replace (10 * Z.pos acc + 3) with (Zpos (Pos.add 3 (Pos.mul 10 acc)))
      by lia.
    rewrite IH. f_equal. f_equal. lia.
  - digit_step IH. replace (10 * Z.pos acc + 4) with (Zpos (Pos.add 4 (Pos.mul 10 acc)))
      by lia.
    rewrite IH. f_equal. f_equal. lia.
  - digit_step IH. replace (10 * Z.pos acc + 5) with (Zpos (Pos.add 5 (Pos.mul 10 acc)))
      by lia.
    rewrite IH. f_equal. f_equal. lia.
  - digit_step IH. replace (10 * Z.pos acc + 6) with (Zpos (Pos.add 6 (Pos.mul 10 acc)))
      by lia.
    rewrite IH. f_equal. f_equal. lia.
  - digit_step IH. replace (10 * Z.pos acc + 7) with (Zpos (Pos.add 7 (Pos.mul 10 acc)))
      by lia.
    rewrite IH. f_equal. f_equal. lia.
  - digit_step IH. replace (10 * Z.pos acc + 8) with (Zpos (Pos.add 8 (Pos.mul 10 acc)))
      by lia.
    rewrite IH. f_equal. f_equal. lia.
  - digit_step IH. replace (10 * Z.pos acc + 9) with (Zpos (Pos.add 9 (Pos.mul 10 acc)))
      by lia.
    rewrite IH. f_equal. f_equal. lia.
Qed.

(** Reading a numeral from nothing gives the number it denotes. *)
Lemma take_digits_numeral (d : Decimal.uint) :
  forall count,
  take_digits (NilEmpty.string_of_uint d) 0 count
  = (Z.of_N (Pos.of_uint d), count + Z.of_nat (Decimal.nb_digits d), EmptyString).
Proof.
  induction d as [| d IH | d IH | d IH | d IH | d IH | d IH | d IH | d IH | d IH | d IH];
    intros count.
  - simpl. f_equal. f_equal. lia.
  - digit_step IH. change (10 * 0 + 0) with 0. rewrite IH. cbn [Pos.of_uint].
    f_equal. f_equal. lia.
  - digit_step IH. change (10 * 0 + 1) with (Zpos 1). rewrite take_digits_acc.
    cbn [Pos.of_uint Z.of_N]. f_equal. f_equal. lia.
  - digit_step IH. change (10 * 0 + 2) with (Zpos 2). rewrite take_digits_acc.
    cbn [Pos.of_uint Z.of_N]. f_equal. f_equal. lia.
  - digit_step IH. change (10 * 0 + 3) with (Zpos 3). rewrite take_digits_acc.
    cbn [Pos.of_uint Z.of_N]. f_equal. f_equal. lia.
  - digit_step IH. change (10 * 0 + 4) with (Zpos 4). rewrite take_digits_acc.
    cbn [Pos.of_uint Z.of_N]. f_equal. f_equal. lia.
  - digit_step IH. change (10 * 0 + 5) with (Zpos 5). rewrite take_digits_acc.
    cbn [Pos.of_uint Z.of_N]. f_equal. f_equal. lia.
  - digit_step IH. change (10 * 0 + 6) with (Zpos 6). rewrite take_digits_acc.
    cbn [Pos.of_uint Z.of_N]. f_equal. f_equal. lia.
  - digit_step IH. change (10 * 0 + 7) with (Zpos 7). rewrite take_digits_acc.
    cbn [Pos.of_uint Z.of_N]. f_equal. f_equal. lia.
  - digit_step IH. change (10 * 0 + 8) with (Zpos 8). rewrite take_digits_acc.
    cbn [Pos.of_uint Z.of_N]. f_equal. f_equal. lia.
  - digit_step IH. change (10 * 0 + 9) with (Zpos 9). rewrite take_digits_acc.
    cbn [Pos.of_uint Z.of_N]. f_equal. f_equal. lia.
Qed.

Lemma strip_by_id (p : ascii -> bool) (s : string) :
  all_chars (fun c => negb (p c)) s = true -> strip_by p s = s.
Proof.
  intros H. unfold strip_by.
  assert (Hl : lstrip_by p s = s).
  { destruct s as [| c s]; [reflexivity |]. simpl in *.
    apply andb_true_iff in H. destruct H as [Hc _].
    apply negb_true_iff in Hc. rewrite Hc. reflexivity. }
  rewrite Hl. clear Hl. induction s as [| c s IH]; [reflexivity |].
  simpl in *. apply andb_true_iff in H. destruct H as [Hc Hs].
  rewrite (IH Hs). destruct s; [| reflexivity].
  apply negb_true_iff in Hc. rewrite Hc. reflexivity.
Qed.

Lemma drop_underscores_id (s : string) :
  all_chars (fun c => negb (is_char 95 c)) s = true ->
  forall prev, is_char 95 prev = false -> drop_underscores prev s = Some s.
Proof.
  induction s as [| c s IH]; simpl; intros H prev Hprev.
  - rewrite Hprev. reflexivity.
  - apply andb_true_iff in H. destruct H as [Hc Hs].
    apply negb_true_iff in Hc. rewrite Hc, Hprev. simpl.
    rewrite (IH Hs c Hc). reflexivity.
Qed.

Lemma all_chars_impl (p q : ascii -> bool) (s : string) :
  (forall c, p c = true -> q c = true) ->
  all_chars p s = true -> all_chars q s = true.
Proof.
  intros Hpq. induction s as [| c s IH]; simpl; [reflexivity |].
  intros H. apply andb_true_iff in H. destruct H as [Hc Hs].
  rewrite (Hpq c Hc), (IH Hs). reflexivity.
Qed.

Lemma numeral_nonempty (d : Decimal.uint) :
  d <> Decimal.Nil ->
  exists c rest, NilEmpty.string_of_uint d = String c rest /\ is_digit c = true.
Proof.
  intros Hd. pose proof (numeral_digits d) as Hall.
  destruct d; try contradiction; simpl in *; eexists; eexists;
    (split; [reflexivity | reflexivity]).
Qed.

(** A numeral, with or without a minus sign, is converted like the
    integer it denotes. *)
Lemma float_of_numeral (negative : bool) (d : Decimal.uint) :
  d <> Decimal.Nil ->
  float_of_str ((if negative then "-" else EmptyString) ++ NilEmpty.string_of_uint d)
  = Ok (nearest_double negative (Z.of_N (Pos.of_uint d)) 1).
Proof.
  intros Hd. pose proof (numeral_digits d) as Hdigits.
  destruct (numeral_nonempty d Hd) as [c [rest [Hs Hc]]].
  destruct (digit_char_facts c Hc) as [Hlow [_ [_ [Hminus [Hplus [Hi Hn]]]]]].
  assert (Hspace : all_chars (fun c => negb (float_isspace c))
                     (NilEmpty.string_of_uint d) = true).
  { apply (all_chars_impl is_digit); [| exact Hdigits].
    intros a Ha. destruct (digit_char_facts a Ha) as [_ [H _]]. rewrite H. reflexivity. }
  assert (Hunder : all_chars (fun c => negb (is_char 95 c))
                     (NilEmpty.string_of_uint d) = true).
  { apply (all_chars_impl is_digit); [| exact Hdigits].
    intros a Ha. destruct (digit_char_facts a Ha) as [_ [_ [H _]]]. rewrite H.
    reflexivity. }
  assert (Hbody :
    (let '(sign, body) :=
       parse_sign ((if negative then "-" else EmptyString)
                   ++ NilEmpty.string_of_uint d) in
     (sign, body)) = (negative, NilEmpty.string_of_uint d)).
  { destruct negative; [reflexivity |]. simpl. rewrite Hs. simpl.
    rewrite Hminus, Hplus. reflexivity. }
  unfold float_of_str.
  assert (Hspace' : all_chars (fun c => negb (float_isspace c))
                      ((if negative then "-" else EmptyString)
                       ++ NilEmpty.string_of_uint d) = true).
  { destruct negative; [| exact Hspace].
    change (true && all_chars (fun c => negb (float_isspace c))
                      (NilEmpty.string_of_uint d) = true). exact Hspace. }
  assert (Hunder' : all_chars (fun c => negb (is_char 95 c))
                      ((if negative then "-" else EmptyString)
                       ++ NilEmpty.string_of_uint d) = true).
  { destruct negative; [| exact Hunder].
    change (true && all_chars (fun c => negb (is_char 95 c))
                      (NilEmpty.string_of_uint d) = true). exact Hunder. }
  rewrite (strip_by_id _ _ Hspace').
  rewrite (drop_underscores_id _ Hunder' zero eq_refl).
  destruct (parse_sign _) as [sign body]. injection Hbody as -> ->.
  assert (Hword : forall w, String.eqb (lower (NilEmpty.string_of_uint d))
                              (String "i" w) = false
                         /\ String.eqb (lower (NilEmpty.string_of_uint d))
                              (String "n" w) = false).
  { intros w. rewrite Hs. simpl. rewrite Hi, Hn. split; reflexivity. }
  rewrite (proj1 (Hword "nf")), (proj1 (Hword "nfinity")), (proj2 (Hword "an")).
  simpl orb. cbv iota.
  unfold parse_decimal. rewrite take_digits_numeral.
  assert (Hlen : 0 < Z.of_nat (Decimal.nb_digits d)).
  { destruct d; try contradiction; simpl; lia. }
  destruct (Z.eqb_spec (0 + Z.of_nat (Decimal.nb_digits d) + 0) 0) as [H0 | _]; [lia |].
  change (0 <=? (- 0)) with true. cbv iota. change (10 ^ (- 0)) with 1.
  rewrite Z.mul_1_r. reflexivity.
Qed.

Lemma float_of_str_int (z : Z) :
  float_of_str (str_of_Z z) = Ok (nearest_double (z <? 0) (Z.abs z) 1).
Proof.
  unfold str_of_Z. destruct z as [| p | p].
  - reflexivity.
  - pose proof (DecimalPos.Unsigned.of_to p) as Hp.
    assert (Hd : Pos.to_uint p <> Decimal.Nil).
    { intros H. rewrite H in Hp. discriminate Hp. }
    change (Z.to_int (Z.pos p)) with (Decimal.Pos (Pos.to_uint p)).
    unfold NilZero.string_of_int, NilZero.string_of_uint.
    pose proof (float_of_numeral false (Pos.to_uint p) Hd) as H.
    rewrite Hp in H. simpl in H.
    destruct (Pos.to_uint p); try contradiction; exact H.
  - pose proof (DecimalPos.Unsigned.of_to p) as Hp.
    assert (Hd : Pos.to_uint p <> Decimal.Nil).
    { intros H. rewrite H in Hp. discriminate Hp. }
    change (Z.to_int (Z.neg p)) with (Decimal.Neg (Pos.to_uint p)).
    unfold NilZero.string_of_int, NilZero.string_of_uint.
    pose proof (float_of_numeral true (Pos.to_uint p) Hd) as H.
    rewrite Hp in H. simpl in H.
    destruct (Pos.to_uint p); try contradiction; exact H.
Qed.

(** X15. A decimal numeral submitted as text is compared as the integer
    it denotes: up to magnitude [2^53] the value rules give on
    [str(z)] what they give on [z] itself, both bounds included. *)
Theorem value_rules_on_numerals (z n : Z) :
  Z.abs z <= 2 ^ 53 ->
  FieldValidator.min_value (VStr (str_of_Z z)) (PVal (VInt n)) = Ok (n <=? z) /\
  FieldValidator.max_value (VStr (str_of_Z z)) (PVal (VInt n)) = Ok (z <=? n).
Proof.
  intros Hz. destruct (py_float_int_exact z Hz) as [m [e [Hf Hm]]].
  destruct (float_order_exact m e z n Hm) as [Hge Hle].
  assert (Hs : py_float (VStr (str_of_Z z)) = Ok (FFin m e)).
  { cbn [py_float]. rewrite float_of_str_int. cbn [py_float] in Hf.
    destruct (nearest_double (z <? 0) (Z.abs z) 1); try discriminate Hf.
    exact Hf. }
  unfold FieldValidator.min_value, FieldValidator.max_value.
  rewrite Hs. cbn [bind]. unfold float_ge_param, float_le_param. cbn [as_number].
  rewrite Hge, Hle. split; reflexivity.
Qed.

(** The text [-5] against the bounds 0 and 120. *)
Lemma value_rules_on_numerals_witness :
  FieldValidator.min_value (VStr "-5") (PVal (VInt 0)) = Ok false /\
  FieldValidator.max_value (VStr "-5") (PVal (VInt 120)) = Ok true.
Proof.
  split.
  - apply (proj1 (value_rules_on_numerals (-5) 0 ltac:(vm_compute; discriminate))).
  - apply (proj2 (value_rules_on_numerals (-5) 120 ltac:(vm_compute; discriminate))).
Defined.

(** ** The [email] factory *)

Lemma Forall2_In_left {A B : Type} (R : A -> B -> Prop) (l : list A) (l' : list B)
    (x : A) :
  Forall2 R l l' -> In x l -> exists y, In y l' /\ R x y.
Proof.
  induction 1 as [| a b l l' Hab _ IH]; simpl; intros Hin.
  - contradiction.
  - destruct Hin as [-> | Hin].
    + exists b. split; [left; reflexivity | exact Hab].
    + destruct (IH Hin) as [y [Hy HR]]. exists y. split; [right; exact Hy | exact HR].
Qed.

Section EmailFactory.

Variable re_match : regex_engine.

(** X16. A field added by the [email] factory is held to the e-mail
    rule whatever else the caller passes: if the value resolved for it
    is not accepted by [email], a validation that returns is not valid
    and reports the field, either with the error of the factory's rule
    or, when the field is required and the value blank, with the
    [required] error. *)
Theorem email_factory_enforces_rule (self : Form.t) (name label : string)
    (kwargs : Kwargs.t) (data : pydict Value) (fd : FormData.t) :
  let form := FormFactory.email self name label kwargs in
  let value := dict_get_default data name (Kwargs.get (Kwargs.default kwargs) VNone) in
  Form.validate re_match form data = Ok fd ->
  FieldValidator.email value = false ->
  FormData.valid fd = false /\
  (In (ValidationError.mk name "email" "Invalid email address") (FormData.errors fd) \/
   In (ValidationError.mk name "required" (str_or label "Email" ++ " is required"))
      (FormData.errors fd)).
Proof.
  intros form value Hval Hemail.
  unfold Form.validate in Hval. apply bind_Ok_inv in Hval.
  destruct Hval as [[errors validated] [Hf Hfd]]. injection Hfd as <-.
  cbn [FormData.valid FormData.errors].
  apply validate_fields_chunks in Hf. destruct Hf as [chunks [-> Hall]].
  cbn [app].
  set (field' := FormField.add_validator
                   (Kwargs.construct name FieldType.EMAIL (str_or label "Email") kwargs)
                   ValidationRule.EMAIL (PVal VNone) (Some "Invalid email address")).
  assert (Hin : In (name, field') (Form.fields form)).
  { apply dict_get_In. apply (dict_get_set_same (Form.fields self) name field'). }
  destruct (Forall2_In_left _ _ _ _ Hall Hin) as [chunk [Hchunk [[recorded Hrun] _]]].
  assert (Herr : In (ValidationError.mk name "email" "Invalid email address") chunk \/
                 In (ValidationError.mk name "required"
                       (str_or label "Email" ++ " is required")) chunk).
  { cbn [Form.validate_fields] in Hrun.
    change (dict_get_default data name (FormField.default field')) with value in Hrun.
    destruct (FormField.required field' && negb (FieldValidator.required value)).
    - injection Hrun as Hc _. rewrite <- Hc. right. left.
      destruct label; reflexivity.
    - apply bind_Ok_inv in Hrun. destruct Hrun as [errors1 [Hrun Hret]].
      injection Hret as Hc _. rewrite <- Hc.
      change (FormField.validators field')
        with (Kwargs.get (Kwargs.validators kwargs) []
              ++ [(ValidationRule.EMAIL, PVal VNone, Some "Invalid email address")])%list
        in Hrun.
      rewrite run_validators_app in Hrun. apply bind_Ok_inv in Hrun.
      destruct Hrun as [errors0 [_ Hlast]].
      cbn [Form.run_validators Form.check_validator Form.evaluate bind] in Hlast.
      rewrite Hemail in Hlast. cbn in Hlast. injection Hlast as Hl. rewrite <- Hl.
      left. unfold append. apply in_or_app. right. left. reflexivity. }
  assert (Hall_in : forall e, In e chunk -> In e (concat chunks)).
  { intros e He. apply in_concat. exists chunk. split; assumption. }
  split.
  - destruct Herr as [He | He]; apply Hall_in in He;
      destruct (concat chunks); [contradiction | reflexivity | contradiction | reflexivity].
  - destruct Herr as [He | He]; [left | right]; apply Hall_in; exact He.
Qed.

End EmailFactory.

(** A required e-mail field on the login form, with a text that has no
    [@]. *)
Lemma email_factory_enforces_rule_witness :
  let fd := FormData.mk [("email", VStr "nobody")] false
              [ValidationError.mk "email" "email" "Invalid email address"] in
  FormData.valid fd = false /\
  (In (ValidationError.mk "email" "email" "Invalid email address") (FormData.errors fd) \/
   In (ValidationError.mk "email" "required" "Email is required") (FormData.errors fd)).
Proof.
  exact (email_factory_enforces_rule plain_engine (Form.init "login") "email"
           EmptyString Kwargs.required_true [("email", VStr "nobody")] _
           eq_refl eq_refl).
Defined.
